(** * SchlossGame: the room/session state machine of [server.js]

    A shallow embedding of the socket.io handlers of [server.js]
    ([createRoom], [joinRoom], [setSecret], [guess], [skipTurn],
    [disconnect]) and of the turn timer ([startTurnTimer],
    [clearTurnTimer] and the [setTimeout] callback), followed by the
    properties of the specification that concern them.

    Conventions of the embedding.
    - A handler is a function from the server state to an [Outcome]: how it
      ended (returned, or threw a [TypeError]), the state it left behind and
      the messages it handed to the transport, in order.
    - Plain JS objects used as dictionaries ([rooms], [room.players]) are
      association lists in insertion order, which is the order of
      [Object.keys] / [Object.values] / [Object.entries] for keys that are
      not array indices.
    - A value read out of [turnOrder] is an [option SocketId]; [None] is
      the JS [undefined].
    - The runtime's table of pending timeouts is a [gmap] from timer handle
      to the room id captured by the callback's closure.
    - [Math.random] is an oracle: the draws are carried by the event.
    - Payload fields are taken at their documented types (strings, and an
      optional integer [codeLength]); [socket.id] is minted by the
      transport. *)

From Stdlib Require Import ZArith String Ascii List Lia Permutation.
From stdpp Require Import base option list strings gmap.

Local Open Scope string_scope.
Local Open Scope Z_scope.

(** Socket ids and room ids are strings, timer handles are numbered in
    order of issue. *)
Abbreviation SocketId := string (only parsing).
Abbreviation RoomId := string (only parsing).
Abbreviation TimerHandle := nat (only parsing).

(** ** Plain objects as insertion-ordered dictionaries *)

Section JsObject.
Context {V : Type}.

(** [o[k]] restricted to own properties. *)
Fixpoint obj_get (o : list (string * V)) (k : string) : option V :=
  match o with
  | [] => None
  | (k', v) :: o' => if String.eqb k' k then Some v else obj_get o' k
  end.

(** [o[k] = v]: an existing key keeps its position, a new one goes last. *)
Fixpoint obj_set (o : list (string * V)) (k : string) (v : V)
  : list (string * V) :=
  match o with
  | [] => [(k, v)]
  | (k', v') :: o' =>
      if String.eqb k' k then (k', v) :: o' else (k', v') :: obj_set o' k v
  end.

(** [delete o[k]]. *)
Fixpoint obj_delete (o : list (string * V)) (k : string)
  : list (string * V) :=
  match o with
  | [] => []
  | (k', v') :: o' =>
      if String.eqb k' k then obj_delete o' k else (k', v') :: obj_delete o' k
  end.

Definition obj_keys (o : list (string * V)) : list string := map fst o.
Definition obj_values (o : list (string * V)) : list V := map snd o.
End JsObject.

(** ** Data model *)

Record Player := mkPlayer {
  name : string;
  secret : string;
  ready : bool
}.

Record Room := mkRoom {
  players : list (SocketId * Player);
  codeLength : Z;
  started : bool;
  turnOrder : list (option SocketId);
  winner : option SocketId;
  turnTimer : option TimerHandle
}.

Definition with_players (r : Room) (ps : list (SocketId * Player)) : Room :=
  mkRoom ps (codeLength r) (started r) (turnOrder r) (winner r) (turnTimer r).
Definition with_started (r : Room) (b : bool) : Room :=
  mkRoom (players r) (codeLength r) b (turnOrder r) (winner r) (turnTimer r).
Definition with_turnOrder (r : Room) (t : list (option SocketId)) : Room :=
  mkRoom (players r) (codeLength r) (started r) t (winner r) (turnTimer r).
Definition with_winner (r : Room) (w : option SocketId) : Room :=
  mkRoom (players r) (codeLength r) (started r) (turnOrder r) w (turnTimer r).
Definition with_turnTimer (r : Room) (h : option TimerHandle) : Room :=
  mkRoom (players r) (codeLength r) (started r) (turnOrder r) (winner r) h.

(** The process state: the [rooms] table, the timeouts the runtime still
    holds, and the next fresh timer handle. *)
Record Server := mkServer {
  rooms : list (RoomId * Room);
  pending : gmap TimerHandle RoomId;
  nextHandle : TimerHandle
}.

Definition with_rooms (s : Server) (rs : list (RoomId * Room)) : Server :=
  mkServer rs (pending s) (nextHandle s).
Definition with_pending (s : Server) (p : gmap TimerHandle RoomId) : Server :=
  mkServer (rooms s) p (nextHandle s).

Definition init : Server := mkServer [] ∅ 0%nat.

(** [rooms] is created as [{}], so a lookup that finds no own property
    falls through to [Object.prototype]; every name found there is a
    truthy value without [players], [started] or [turnTimer]. *)
Definition object_prototype_names : list string :=
  [ "constructor"; "__proto__"; "hasOwnProperty"; "isPrototypeOf";
    "propertyIsEnumerable"; "toLocaleString"; "toString"; "valueOf";
    "__defineGetter__"; "__defineSetter__"; "__lookupGetter__";
    "__lookupSetter__" ].

Inductive RoomRef :=
| Own (room : Room)
| Inherited
| Undefined.

(** [rooms[roomId]] *)
Definition rooms_get (s : Server) (roomId : RoomId) : RoomRef :=
  match obj_get (rooms s) roomId with
  | Some room => Own room
  | None =>
      if existsb (String.eqb roomId) object_prototype_names
      then Inherited else Undefined
  end.

(** ** Outbound messages *)

Inductive Payload :=
| RoomCreated (roomId : RoomId) (codeLength : Z)
| ErrorMessage (message : string)
| RoomJoined (roomId : RoomId) (codeLength : Z)
    (players : list (SocketId * string))
| PlayerReady (playerId : SocketId) (name : string) (allReady : bool)
| GameStarted (roomId : RoomId) (currentTurn : option SocketId)
| GuessResult (from : SocketId) (guess : string) (correct : Z)
| GameOver (winner : SocketId) (winnerName : string)
    (loserId : option SocketId) (loserName : string)
| TurnChanged (roomId : RoomId) (currentTurn : option SocketId)
| TurnSkipped (from next : option SocketId)
| TurnTimeout (roomId : RoomId) (expiredPlayerId nextPlayerId : option SocketId)
| OpponentLeft (playerId : SocketId).

Inductive Effect :=
| ToSocket (to : SocketId) (p : Payload)      (* socket.emit *)
| ToRoom (roomId : RoomId) (p : Payload)      (* io.to(roomId).emit *)
| JoinChannel (who : SocketId) (roomId : RoomId). (* socket.join *)

Inductive Status := Returned | ThrewTypeError.

Record Outcome := mkOutcome {
  status : Status;
  after : Server;
  sent : list Effect
}.

Definition ret (s : Server) (out : list Effect) : Outcome :=
  mkOutcome Returned s out.
Definition throw (s : Server) (out : list Effect) : Outcome :=
  mkOutcome ThrewTypeError s out.

(** ** Helpers standing for JS primitives *)

(** A value used as a property key is converted to a string. *)
Definition to_key (v : option SocketId) : string :=
  match v with
  | Some id => id
  | None => "undefined"
  end.

(** Truthiness of [room.winner]: [null] and the empty string are falsy. *)
Definition truthy (v : option SocketId) : bool :=
  match v with
  | Some id => negb (String.eqb id "")
  | None => false
  end.

(** [a[i]] on an array whose elements may themselves be [undefined]. *)
Definition js_index (a : list (option SocketId)) (i : nat) : option SocketId :=
  match a !! i with
  | Some v => v
  | None => None
  end.

(** [a.indexOf(x)], counting from [i]. *)
Fixpoint index_from (a : list (option SocketId)) (x : SocketId) (i : Z) : Z :=
  match a with
  | [] => -1
  | v :: a' =>
      if bool_decide (v = Some x) then i else index_from a' x (i + 1)
  end.
Definition indexOf (a : list (option SocketId)) (x : SocketId) : Z :=
  index_from a x 0.

Definition is_digit (c : ascii) : bool :=
  let n := nat_of_ascii c in (48 <=? n)%nat && (n <=? 57)%nat.

(** [/^\d+$/.test(s)] *)
Definition digits_only (s : string) : bool :=
  match list_ascii_of_string s with
  | [] => false
  | cs => forallb is_digit cs
  end.

(** The two format guards of [setSecret] and [guess] pass together exactly
    when the text is [codeLength] digits; a text of digits has as many
    UTF-16 units as bytes, so [String.length] stands for [.length]. *)
Definition well_formed (text : string) (codeLength : Z) : bool :=
  digits_only text && (Z.of_nat (String.length text) =? codeLength).

(** ** Room identifiers *)

Definition chars : string := "ABCDEFGHJKMNPQRSTUVWXYZ23456789".

(** [draws] lists the successive values of
    [Math.floor(Math.random() * chars.length)]; each is reduced into the
    range of that expression. *)
Definition generateRoomId (draws : list nat) : RoomId :=
  fold_left
    (fun id i =>
       match String.get (nth i draws 0%nat mod String.length chars) chars with
       | Some c => id +:+ String c ""
       | None => id
       end)
    (seq 0 4) "".

(** ** Timer helpers *)

Definition startTurnTimer (roomId : RoomId) (s : Server) : Server :=
  match rooms_get s roomId with
  | Undefined => s
  | Own room =>
      (* alten Timer stoppen, falls vorhanden *)
      let pend :=
        match turnTimer room with
        | Some old => delete old (pending s)
        | None => pending s
        end in
      let h := nextHandle s in
      mkServer
        (obj_set (rooms s) roomId (with_turnTimer room (Some h)))
        (<[h := roomId]> pend)
        (S h)
  | Inherited =>
      (* no call site passes such an id; the handle would be stored on the
         inherited object, which is not part of the state *)
      mkServer (rooms s) (<[nextHandle s := roomId]> (pending s))
        (S (nextHandle s))
  end.

Definition clearTurnTimer (roomId : RoomId) (s : Server) : Server :=
  match rooms_get s roomId with
  | Own room =>
      match turnTimer room with
      | Some h =>
          mkServer
            (obj_set (rooms s) roomId (with_turnTimer room None))
            (delete h (pending s))
            (nextHandle s)
      | None => s
      end
  | _ => s
  end.

(** The callback given to [setTimeout] by [startTurnTimer roomId]. *)
Definition turnTimerCallback (roomId : RoomId) (s : Server) : Outcome :=
  match rooms_get s roomId with
  | Own r =>
      if negb (started r) || truthy (winner r) then ret s []
      else
        let expiredPlayerId := js_index (turnOrder r) 0 in
        let nextPlayerId := js_index (turnOrder r) 1 in
        let r1 := with_turnOrder r [nextPlayerId; expiredPlayerId] in
        let s1 := with_rooms s (obj_set (rooms s) roomId r1) in
        ret (startTurnTimer roomId s1)
          [ToRoom roomId (TurnTimeout roomId expiredPlayerId nextPlayerId)]
  | _ => ret s []
  end.

(** ** Socket handlers *)

Definition newPlayer (nm : string) : Player := mkPlayer nm "" false.

Definition createRoom (sid : SocketId) (nm : string) (cl : option Z)
    (draws : list nat) (s : Server) : Outcome :=
  let roomId := generateRoomId draws in
  let room :=
    mkRoom []
      (match cl with                     (* codeLength || 3 *)
       | Some n => if n =? 0 then 3 else n
       | None => 3
       end)
      false [] None None in
  let room := with_players room (obj_set (players room) sid (newPlayer nm)) in
  ret (with_rooms s (obj_set (rooms s) roomId room))
    [JoinChannel sid roomId;
     ToSocket sid (RoomCreated roomId (codeLength room))].

Definition joinRoom (sid : SocketId) (nm : string) (roomId : RoomId)
    (s : Server) : Outcome :=
  match rooms_get s roomId with
  | Undefined => ret s [ToSocket sid (ErrorMessage "Raum nicht gefunden.")]
  | Inherited => throw s []            (* Object.keys(undefined) *)
  | Own room =>
      if (2 <=? length (obj_keys (players room)))%nat
      then ret s [ToSocket sid (ErrorMessage "Raum ist voll.")]
      else
        let room1 :=
          with_players room (obj_set (players room) sid (newPlayer nm)) in
        ret (with_rooms s (obj_set (rooms s) roomId room1))
          [JoinChannel sid roomId;
           ToRoom roomId
             (RoomJoined roomId (codeLength room1)
                (map (fun e => (fst e, name (snd e))) (players room1)))]
  end.

(** [coin] is the outcome of [Math.random() < 0.5]. *)
Definition setSecret (sid : SocketId) (roomId : RoomId) (sec : string)
    (coin : bool) (s : Server) : Outcome :=
  match rooms_get s roomId with
  | Undefined => ret s []
  | Inherited => throw s []            (* room.players is undefined *)
  | Own room =>
      match obj_get (players room) sid with
      | None => ret s []
      | Some p =>
          if negb (Z.of_nat (String.length sec) =? codeLength room)
             || negb (digits_only sec)
          then ret s []
          else
            let p1 := mkPlayer (name p) sec true in
            let room1 := with_players room (obj_set (players room) sid p1) in
            let allReady :=
              (length (obj_values (players room1)) =? 2)%nat
              && forallb ready (obj_values (players room1)) in
            let out1 := [ToRoom roomId (PlayerReady sid (name p1) allReady)] in
            if allReady && negb (started room1) then
              let ids := obj_keys (players room1) in
              let order :=
                if coin then [ids !! 0%nat; ids !! 1%nat]
                else [ids !! 1%nat; ids !! 0%nat] in
              let room2 := with_turnOrder (with_started room1 true) order in
              let first := js_index (turnOrder room2) 0 in
              let s2 := with_rooms s (obj_set (rooms s) roomId room2) in
              ret (startTurnTimer roomId s2)
                (out1 ++ [ToRoom roomId (GameStarted roomId first)])%list
            else
              ret (with_rooms s (obj_set (rooms s) roomId room1)) out1
      end
  end.

(** The scoring loop of [guess]. Each iteration reads [opponent.secret],
    which throws when [opponent] is [undefined]; [None] is that throw. *)
Definition count_correct (value : string) (opponent : option Player)
    (codeLength : Z) : option Z :=
  fold_left
    (fun acc i =>
       match acc, opponent with
       | Some correct, Some opp =>
           if bool_decide (String.get i value = String.get i (secret opp))
           then Some (correct + 1) else Some correct
       | _, _ => None
       end)
    (seq 0 (Z.to_nat codeLength)) (Some 0).

Definition guess (sid : SocketId) (roomId : RoomId) (value : string)
    (s : Server) : Outcome :=
  match rooms_get s roomId with
  | Own room =>
      if negb (started room) then ret s []
      else if negb (digits_only value)
              || negb (Z.of_nat (String.length value) =? codeLength room)
      then ret s []
      else if negb (indexOf (turnOrder room) sid =? 0)
      then ret s [ToSocket sid (ErrorMessage "Du bist nicht am Zug.")]
      else
        let opponentId := js_index (turnOrder room) 1 in
        let opponent := obj_get (players room) (to_key opponentId) in
        match count_correct value opponent (codeLength room) with
        | None => throw s []
        | Some correct =>
            let out1 := [ToRoom roomId (GuessResult sid value correct)] in
            if correct =? codeLength room then
              let s1 :=
                with_rooms s
                  (obj_set (rooms s) roomId (with_winner room (Some sid))) in
              match obj_get (players room) sid, opponent with
              | Some me, Some opp =>
                  (* Spiel vorbei → Timer stoppen *)
                  ret (clearTurnTimer roomId s1)
                    (out1 ++
                     [ToRoom roomId
                        (GameOver sid (name me) opponentId (name opp))])%list
              | _, _ => throw s1 out1  (* .name of undefined *)
              end
            else
              (* Zug wechselt nach gültigem Tipp *)
              let room1 := with_turnOrder room [opponentId; Some sid] in
              let s1 := with_rooms s (obj_set (rooms s) roomId room1) in
              ret (startTurnTimer roomId s1)
                (out1 ++ [ToRoom roomId (TurnChanged roomId opponentId)])%list
        end
  | _ => ret s []
  end.

Definition skipTurn (sid : SocketId) (roomId : RoomId) (s : Server)
    : Outcome :=
  match rooms_get s roomId with
  | Own room =>
      if negb (started room) then ret s []
      else if negb (bool_decide (js_index (turnOrder room) 0 = Some sid))
      then ret s []
      else
        let current := js_index (turnOrder room) 0 in
        let next := js_index (turnOrder room) 1 in
        let room1 := with_turnOrder room [next; current] in
        ret (with_rooms s (obj_set (rooms s) roomId room1))
          [ToRoom roomId (TurnSkipped current next)]
  | _ => ret s []
  end.

(** One iteration of the loop of [disconnect] over the snapshot
    [Object.entries(rooms)]. *)
Definition disconnect_room (sid : SocketId) (acc : Server * list Effect)
    (entry : RoomId * Room) : Server * list Effect :=
  let '(s, out) := acc in
  let '(roomId, room) := entry in
  match obj_get (players room) sid with
  | None => acc
  | Some _ =>
      let room1 := with_players room (obj_delete (players room) sid) in
      let s1 := with_rooms s (obj_set (rooms s) roomId room1) in
      let out1 := (out ++ [ToRoom roomId (OpponentLeft sid)])%list in
      if (length (obj_keys (players room1)) =? 0)%nat then
        (* letzter Spieler weg → Timer löschen & Raum entfernen *)
        let s2 := clearTurnTimer roomId s1 in
        (with_rooms s2 (obj_delete (rooms s2) roomId), out1)
      else (s1, out1)
  end.

Definition disconnect (sid : SocketId) (s : Server) : Outcome :=
  let '(s', out) := fold_left (disconnect_room sid) (rooms s) (s, []) in
  ret s' out.

(** ** Events and the step function *)

Inductive Event :=
| CreateRoom (sid : SocketId) (name : string) (codeLength : option Z)
    (draws : list nat)
| JoinRoom (sid : SocketId) (name : string) (roomId : RoomId)
| SetSecret (sid : SocketId) (roomId : RoomId) (secret : string) (coin : bool)
| Guess (sid : SocketId) (roomId : RoomId) (value : string)
| SkipTurn (sid : SocketId) (roomId : RoomId)
| Disconnect (sid : SocketId)
| TimerExpiry (h : TimerHandle).

(** A timeout fires only while the runtime still holds it, and is gone
    from the table before its callback runs. *)
Definition handle (s : Server) (e : Event) : Outcome :=
  match e with
  | CreateRoom sid nm cl draws => createRoom sid nm cl draws s
  | JoinRoom sid nm roomId => joinRoom sid nm roomId s
  | SetSecret sid roomId sec coin => setSecret sid roomId sec coin s
  | Guess sid roomId value => guess sid roomId value s
  | SkipTurn sid roomId => skipTurn sid roomId s
  | Disconnect sid => disconnect sid s
  | TimerExpiry h =>
      match pending s !! h with
      | Some roomId =>
          turnTimerCallback roomId (with_pending s (delete h (pending s)))
      | None => ret s []
      end
  end.

(** Running a sequence of events; an uncaught exception ends the run. *)
Fixpoint run (s : Server) (es : list Event) : Server :=
  match es with
  | [] => s
  | e :: es' =>
      let o := handle s e in
      match status o with
      | Returned => run (after o) es'
      | ThrewTypeError => after o
      end
  end.

Inductive reachable : Server -> Prop :=
| reachable_init : reachable init
| reachable_step s e :
    reachable s -> status (handle s e) = Returned ->
    reachable (after (handle s e)).

(** ** Phases *)

Inductive Phase := Lobby | Active | Finished.

(** The phase is derived from [started] and [winner]. *)
Definition phase (r : Room) : Phase :=
  if negb (started r) then Lobby
  else match winner r with
       | None => Active
       | Some _ => Finished
       end.

Definition phase_rank (p : Phase) : nat :=
  match p with Lobby => 0 | Active => 1 | Finished => 2 end.

(** ** A worked session *)

Definition alice : SocketId := "aXk29fLq0bTzR4mVwA01".
Definition bob : SocketId := "Qm7hD3sYc8nPe5uJgB02".

(** Alice opens a room (code length 3), Bob joins, Alice commits 123 and
    Bob commits 456; the coin gives Alice the first turn. *)
Definition opening : list Event :=
  [ CreateRoom alice "Alice" (Some 3) [0; 1; 2; 3]%nat;
    JoinRoom bob "Bob" "ABCD";
    SetSecret alice "ABCD" "123" true;
    SetSecret bob "ABCD" "456" true ].

Definition playing : Server := run init opening.

(** The room of [playing]. *)
Definition playing_room : Room :=
  mkRoom
    [(alice, mkPlayer "Alice" "123" true); (bob, mkPlayer "Bob" "456" true)]
    3 true [Some alice; Some bob] None (Some 0%nat).

(** ** Vocabulary of the properties *)

(** The actions the handlers give up on before touching anything. *)
Inductive drop_case (s : Server) : Event -> Prop :=
| drop_setSecret_no_room sid roomId sec coin :
    rooms_get s roomId = Undefined ->
    drop_case s (SetSecret sid roomId sec coin)
| drop_setSecret_stranger sid roomId sec coin room :
    obj_get (rooms s) roomId = Some room ->
    obj_get (players room) sid = None ->
    drop_case s (SetSecret sid roomId sec coin)
| drop_setSecret_format sid roomId sec coin room :
    obj_get (rooms s) roomId = Some room ->
    well_formed sec (codeLength room) = false ->
    drop_case s (SetSecret sid roomId sec coin)
| drop_guess_no_room sid roomId value :
    obj_get (rooms s) roomId = None ->
    drop_case s (Guess sid roomId value)
| drop_guess_lobby sid roomId value room :
    obj_get (rooms s) roomId = Some room ->
    started room = false ->
    drop_case s (Guess sid roomId value)
| drop_guess_format sid roomId value room :
    obj_get (rooms s) roomId = Some room ->
    well_formed value (codeLength room) = false ->
    drop_case s (Guess sid roomId value)
| drop_skipTurn_no_room sid roomId :
    obj_get (rooms s) roomId = None ->
    drop_case s (SkipTurn sid roomId)
| drop_skipTurn_lobby sid roomId room :
    obj_get (rooms s) roomId = Some room ->
    started room = false ->
    drop_case s (SkipTurn sid roomId)
| drop_skipTurn_not_active sid roomId room :
    obj_get (rooms s) roomId = Some room ->
    js_index (turnOrder room) 0 <> Some sid ->
    drop_case s (SkipTurn sid roomId).

(** An action is dropped when its handler returns without having changed
    the state or sent anything. *)
Definition dropped (s : Server) (e : Event) : Prop :=
  handle s e = ret s [].

(** The score in the words of the specification: the number of positions
    [i] in [[0, n)] at which the guess and the secret agree. *)
Definition matching_positions (value sec : string) (n : nat) : nat :=
  length (filter (fun i => String.get i value = String.get i sec) (seq 0 n)).

(** Alice guesses Bob's secret on her first turn. *)
Definition won : Server := run playing [Guess alice "ABCD" "456"].

(** Bob's connection drops while the game is being played. *)
Definition bob_gone : Server := run playing [Disconnect bob].

(** What a handler may do to a room it leaves in the table: [codeLength]
    is kept, [started] is never reset, [winner] is never cleared, and a
    started room's [turnOrder] is kept, swapped, or freshly set to two
    ids. *)
Record room_step (r r' : Room) : Prop := mk_room_step {
  step_codeLength : codeLength r' = codeLength r;
  step_started : started r = true -> started r' = true;
  step_winner : winner r <> None -> winner r' <> None;
  step_turnOrder :
    started r' = true ->
    (started r = true /\
     (turnOrder r' = turnOrder r \/
      turnOrder r' = [js_index (turnOrder r) 1; js_index (turnOrder r) 0]))
    \/ (exists a b, turnOrder r' = [Some a; Some b])
}.

(** What a handler other than [disconnect] may do to the membership of a
    started room: start it with [turnOrder] listing its two players, add a
    player when fewer than two are in, or keep the players and keep or swap
    [turnOrder]. *)
Definition members_step (r r' : Room) : Prop :=
  started r' = true ->
  Permutation (turnOrder r') (map Some (obj_keys (players r')))
  \/ (started r = true /\ (length (obj_keys (players r)) < 2)%nat)
  \/ (obj_keys (players r') = obj_keys (players r) /\ started r = true /\
      (turnOrder r' = turnOrder r \/
       turnOrder r' = [js_index (turnOrder r) 1; js_index (turnOrder r) 0])).

(** Both of the above: what joinRoom, setSecret, guess, skipTurn and the
    timer callback may do to a room. *)
Definition full_step (r r' : Room) : Prop :=
  room_step r r' /\ members_step r r'.

(** A handler either leaves the table alone or rewrites one room of it,
    within the relation [R]. *)
Definition updates_room_by (R : Room -> Room -> Prop)
    (s s' : Server) (roomId : RoomId) : Prop :=
  rooms s' = rooms s \/
  exists r r', obj_get (rooms s) roomId = Some r /\ R r r' /\
               rooms s' = obj_set (rooms s) roomId r'.

Definition updates_room : Server -> Server -> RoomId -> Prop :=
  updates_room_by room_step.

(** The room a [createRoom] event puts into the table. *)
Definition created_room (sid : SocketId) (nm : string) (cl : option Z) : Room :=
  mkRoom [(sid, newPlayer nm)]
    (match cl with
     | Some n => if n =? 0 then 3 else n
     | None => 3
     end)
    false [] None None.

(** What [disconnect] leaves of one room: the room itself if the socket
    was not in it, nothing if it was the last player, and otherwise the
    room without that player. *)
Definition after_disconnect (sid : SocketId) (room : Room) : option Room :=
  match obj_get (players room) sid with
  | None => Some room
  | Some _ =>
      let room1 := with_players room (obj_delete (players room) sid) in
      if (length (obj_keys (players room1)) =? 0)%nat then None
      else Some room1
  end.

(** The event is a [createRoom] whose generated id is [roomId]. *)
Definition creates (e : Event) (roomId : RoomId) : Prop :=
  match e with
  | CreateRoom _ _ _ draws => generateRoomId draws = roomId
  | _ => False
  end.

(** Every handler of the run returned. *)
Fixpoint returns (s : Server) (es : list Event) : bool :=
  match es with
  | [] => true
  | e :: es' =>
      match status (handle s e) with
      | Returned => returns (after (handle s e)) es'
      | ThrewTypeError => false
      end
  end.

(** A started room has two ids in [turnOrder]. *)
Definition two_turns (r : Room) : Prop :=
  started r = true -> exists a b, turnOrder r = [Some a; Some b].

(** The timer discipline of the server. Every pending timeout belongs to
    a started room of the table and is the one whose handle the room holds;
    every Active room (other than [skip], while a handler is at work on it)
    holds the handle of a pending timeout; handles held by rooms were issued
    in the past, and no two rooms hold the same handle. *)
Record timers_inv (skip : option RoomId) (s : Server) : Prop := mk_timers_inv {
  pending_owned :
    forall h roomId,
      pending s !! h = Some roomId ->
      exists r, obj_get (rooms s) roomId = Some r /\
                turnTimer r = Some h /\ started r = true;
  active_timed :
    forall roomId r,
      skip <> Some roomId ->
      obj_get (rooms s) roomId = Some r -> phase r = Active ->
      exists h, turnTimer r = Some h /\ pending s !! h = Some roomId;
  handles_issued :
    forall roomId r h,
      obj_get (rooms s) roomId = Some r -> turnTimer r = Some h ->
      (h < nextHandle s)%nat;
  handles_distinct :
    forall roomId1 roomId2 r1 r2 h,
      obj_get (rooms s) roomId1 = Some r1 ->
      obj_get (rooms s) roomId2 = Some r2 ->
      turnTimer r1 = Some h -> turnTimer r2 = Some h -> roomId1 = roomId2
}.

(** The discipline between two events, when no handler is at work. *)
Definition timers_ok : Server -> Prop := timers_inv None.

(** States reached by runs in which every [createRoom] draws an id that
    is not in the table. *)
Inductive reachable_fresh : Server -> Prop :=
| reachable_fresh_init : reachable_fresh init
| reachable_fresh_step s e :
    reachable_fresh s ->
    (forall roomId, creates e roomId -> obj_get (rooms s) roomId = None) ->
    status (handle s e) = Returned ->
    reachable_fresh (after (handle s e)).

(** While a room is started, [turnOrder] lists exactly its players. *)
Definition turn_members (r : Room) : Prop :=
  started r = true ->
  Permutation (turnOrder r) (map Some (obj_keys (players r))).

(** The event is the disconnect of a player of a started room. *)
Definition leaves_started_room (s : Server) (e : Event) : Prop :=
  match e with
  | Disconnect sid =>
      exists roomId r,
        obj_get (rooms s) roomId = Some r /\ started r = true /\
        obj_get (players r) sid <> None
  | _ => False
  end.

(** States reached by runs in which nobody leaves a started room. *)
Inductive reachable_staying : Server -> Prop :=
| reachable_staying_init : reachable_staying init
| reachable_staying_step s e :
    reachable_staying s ->
    ~ leaves_started_room s e ->
    status (handle s e) = Returned ->
    reachable_staying (after (handle s e)).


(** The handler left [winner] as it was. *)
Definition keeps_winner (r r' : Room) : Prop := winner r' = winner r.

(** [codeLength || 3] *)
Definition codeLength_or_3 (cl : option Z) : Z :=
  match cl with
  | Some n => if n =? 0 then 3 else n
  | None => 3
  end.

(** A player entry is either fresh (no secret, not ready) or committed
    (ready, with a secret of exactly [n] digits). *)
Definition player_ok (n : Z) (p : Player) : Prop :=
  (secret p = "" /\ ready p = false) \/
  (ready p = true /\ well_formed (secret p) n = true).

(** Well-formed rooms: distinct player ids, one or two players, every
    player entry fresh or committed. *)
Record room_wf (r : Room) : Prop := mk_room_wf {
  wf_ids : NoDup (obj_keys (players r));
  wf_count : (1 <= length (obj_keys (players r)) <= 2)%nat;
  wf_players :
    forall sid p, obj_get (players r) sid = Some p -> player_ok (codeLength r) p
}.

(** What a handler other than [disconnect] may do to the players of a
    room: nothing, add a fresh entry while fewer than two are in, or commit
    the secret of a player who is in. *)
Definition players_step (r r' : Room) : Prop :=
  codeLength r' = codeLength r /\
  (players r' = players r \/
   (exists sid nm,
       (length (obj_keys (players r)) < 2)%nat /\
       players r' = obj_set (players r) sid (newPlayer nm)) \/
   (exists sid p sec,
       obj_get (players r) sid = Some p /\
       well_formed sec (codeLength r) = true /\
       players r' = obj_set (players r) sid (mkPlayer (name p) sec true))).

(** Every step of the run is a returning handler on a table that does
    not hold the id a [createRoom] generates. *)
Fixpoint fresh_run (s : Server) (es : list Event) : bool :=
  match es with
  | [] => true
  | e :: es' =>
      match e with
      | CreateRoom _ _ _ draws =>
          match obj_get (rooms s) (generateRoomId draws) with
          | None => true
          | Some _ => false
          end
      | _ => true
      end
      && match status (handle s e) with
         | Returned => fresh_run (after (handle s e)) es'
         | ThrewTypeError => false
         end
  end.

(** [leaves_started_room] as a test on the table. *)
Definition leaves_started_roomb (s : Server) (e : Event) : bool :=
  match e with
  | Disconnect sid =>
      existsb
        (fun entry =>
           started (snd entry)
           && match obj_get (players (snd entry)) sid with
              | Some _ => true
              | None => false
              end)
        (rooms s)
  | _ => false
  end.

(** Every step of the run is a returning handler and nobody leaves a
    started room. *)
Fixpoint staying_run (s : Server) (es : list Event) : bool :=
  match es with
  | [] => true
  | e :: es' =>
      negb (leaves_started_roomb s e)
      && match status (handle s e) with
         | Returned => staying_run (after (handle s e)) es'
         | ThrewTypeError => false
         end
  end.

(** Alice and Bob are playing in ABCD while Carol waits alone in EEEE. *)
Definition two_rooms : Server :=
  run playing [CreateRoom "Cq5carol0000000000D4" "Carol" None [4; 4; 4; 4]%nat].

(** ** Dictionary lemmas *)

Section JsObjectFacts.
Context {V : Type}.
Implicit Types (o : list (string * V)) (k : string) (v : V).

Lemma obj_get_set o k v k' :
  obj_get (obj_set o k v) k' = if decide (k = k') then Some v else obj_get o k'.
Proof.
  induction o as [|[k0 v0] o IH]; simpl.
  - destruct (String.eqb_spec k k'); case_decide; congruence.
  - destruct (String.eqb_spec k0 k) as [->|Hne]; simpl.
    + destruct (String.eqb_spec k k'); case_decide; congruence.
    + destruct (String.eqb_spec k0 k') as [->|Hne'].
      * case_decide; congruence.
      * apply IH.
Qed.

Lemma obj_get_set_eq o k v : obj_get (obj_set o k v) k = Some v.
Proof. rewrite obj_get_set. by case_decide. Qed.

Lemma obj_get_set_ne o k v k' :
  k ≠ k' -> obj_get (obj_set o k v) k' = obj_get o k'.
Proof. intros. rewrite obj_get_set. by case_decide. Qed.

Lemma obj_get_delete o k k' :
  obj_get (obj_delete o k) k' = if decide (k = k') then None else obj_get o k'.
Proof.
  induction o as [|[k0 v0] o IH]; simpl.
  - by case_decide.
  - destruct (String.eqb_spec k0 k) as [->|Hne]; simpl.
    + rewrite IH. case_decide; [done|].
      destruct (String.eqb_spec k k'); congruence.
    + destruct (String.eqb_spec k0 k') as [->|Hne'].
      * case_decide; congruence.
      * apply IH.
Qed.

End JsObjectFacts.

Lemma rooms_get_own s roomId room :
  obj_get (rooms s) roomId = Some room -> rooms_get s roomId = Own room.
Proof. unfold rooms_get. by intros ->. Qed.

Lemma rooms_get_own_inv s roomId room :
  rooms_get s roomId = Own room -> obj_get (rooms s) roomId = Some room.
Proof. unfold rooms_get. repeat case_match; congruence. Qed.

Lemma well_formed_guards text n :
  negb (digits_only text) || negb (Z.of_nat (String.length text) =? n)
  = negb (well_formed text n).
Proof. unfold well_formed. by rewrite negb_andb. Qed.

Lemma well_formed_guards' text n :
  negb (Z.of_nat (String.length text) =? n) || negb (digits_only text)
  = negb (well_formed text n).
Proof. unfold well_formed. rewrite negb_andb. apply orb_comm. Qed.

(** ** The guards of the handlers *)

Lemma guess_not_started s sid roomId value room :
  obj_get (rooms s) roomId = Some room -> started room = false ->
  handle s (Guess sid roomId value) = ret s [].
Proof.
  intros Hr Hs. simpl. unfold guess.
  by rewrite (rooms_get_own _ _ _ Hr), Hs.
Qed.

Lemma guess_ill_formed s sid roomId value room :
  obj_get (rooms s) roomId = Some room ->
  well_formed value (codeLength room) = false ->
  handle s (Guess sid roomId value) = ret s [].
Proof.
  intros Hr Hw. simpl. unfold guess.
  rewrite (rooms_get_own _ _ _ Hr), well_formed_guards, Hw.
  by destruct (started room).
Qed.

(** C10 (guard order in guess). In a started session a guess that is not
    exactly codeLength digits is dropped, whoever sends it: the handler
    returns with the state unchanged and nothing sent, so a caller who is not
    the active player gets no "Du bist nicht am Zug." error for it. *)
Theorem guess_format_precedes_turn
    (s : Server) (sid : SocketId) (roomId : RoomId) (value : string)
    (room : Room) :
  obj_get (rooms s) roomId = Some room ->
  started room = true ->
  well_formed value (codeLength room) = false ->
  handle s (Guess sid roomId value) = ret s [] /\
  (indexOf (turnOrder room) sid <> 0 ->
   ~ In (ToSocket sid (ErrorMessage "Du bist nicht am Zug."))
       (sent (handle s (Guess sid roomId value)))).
Proof.
  intros Hr _ Hw.
  pose proof (guess_ill_formed s sid roomId value room Hr Hw) as E.
  split; [exact E|]. intros _. rewrite E. simpl. tauto.
Qed.

Lemma guess_format_precedes_turn_witness :
  handle playing (Guess bob "ABCD" "45x") = ret playing [] /\
  handle playing (Guess bob "ABCD" "4567") = ret playing [] /\
  sent (handle playing (Guess bob "ABCD" "455"))
  = [ToSocket bob (ErrorMessage "Du bist nicht am Zug.")].
Proof.
  split; [|split].
  - eapply (guess_format_precedes_turn playing bob "ABCD" "45x");
      vm_compute; reflexivity.
  - eapply (guess_format_precedes_turn playing bob "ABCD" "4567");
      vm_compute; reflexivity.
  - vm_compute. reflexivity.
Defined.

(** C5 (silent drop, as the handlers implement it). setSecret for a room
    that does not exist, from a socket that is not a player of the room, or
    with a secret that is not exactly codeLength digits; guess for a room that
    does not exist, for a room that has not started, or with a value that is
    not exactly codeLength digits; skipTurn for a room that does not exist,
    that has not started, or from a socket other than turnOrder[0]: each
    returns with the state unchanged and nothing sent. A well-formed
    setSecret from a player of the room is not among them, whatever the
    phase. *)
Theorem silent_drop (s : Server) (e : Event) :
  drop_case s e -> dropped s e.
Proof.
  unfold dropped.
  destruct 1 as
    [sid roomId sec coin Hu | sid roomId sec coin room Hr Hp
    | sid roomId sec coin room Hr Hw
    | sid roomId value Hn | sid roomId value room Hr Hs
    | sid roomId value room Hr Hw
    | sid roomId Hn | sid roomId room Hr Hs | sid roomId room Hr Hne ].
  - simpl. unfold setSecret. by rewrite Hu.
  - simpl. unfold setSecret. by rewrite (rooms_get_own _ _ _ Hr), Hp.
  - simpl. unfold setSecret.
    rewrite (rooms_get_own _ _ _ Hr), well_formed_guards', Hw.
    by destruct (obj_get (players room) sid).
  - simpl. unfold guess, rooms_get. rewrite Hn. by destruct (existsb _ _).
  - by eapply guess_not_started.
  - by eapply guess_ill_formed.
  - simpl. unfold skipTurn, rooms_get. rewrite Hn. by destruct (existsb _ _).
  - simpl. unfold skipTurn. by rewrite (rooms_get_own _ _ _ Hr), Hs.
  - simpl. unfold skipTurn. rewrite (rooms_get_own _ _ _ Hr).
    rewrite bool_decide_eq_false_2 by done. by destruct (started room).
Qed.

Lemma silent_drop_witness :
  dropped playing (SetSecret alice "ABCD" "12a" true) /\
  dropped playing (SetSecret "Zz0stranger000000C03" "ABCD" "777" true) /\
  dropped playing (SkipTurn bob "ABCD") /\
  dropped (run init [CreateRoom alice "Alice" None [4; 4; 4; 4]%nat])
    (Guess alice "EEEE" "123").
Proof.
  split; [|split; [|split]]; apply silent_drop.
  - eapply drop_setSecret_format; vm_compute; reflexivity.
  - eapply drop_setSecret_stranger; vm_compute; reflexivity.
  - eapply drop_skipTurn_not_active; [vm_compute; reflexivity|].
    vm_compute. discriminate.
  - eapply drop_guess_lobby; vm_compute; reflexivity.
Defined.

(** C5 as stated does not hold: a setSecret sent while the session is
    Active, by a player of the room and in the right format, is out of
    phase but not dropped; it replaces that player's secret and a
    playerReady message goes to the room. *)
Lemma setSecret_while_active_not_dropped :
  exists room,
    obj_get (rooms playing) "ABCD" = Some room /\
    phase room = Active /\
    sent (handle playing (SetSecret alice "ABCD" "999" true))
    = [ToRoom "ABCD" (PlayerReady alice "Alice" true)] /\
    (exists room',
        obj_get (rooms (after (handle playing (SetSecret alice "ABCD" "999" true))))
          "ABCD" = Some room' /\
        (secret <$> obj_get (players room) alice) = Some "123" /\
        (secret <$> obj_get (players room') alice) = Some "999") /\
    ~ dropped playing (SetSecret alice "ABCD" "999" true).
Proof.
  eexists. split; [vm_compute; reflexivity|].
  split; [vm_compute; reflexivity|].
  split; [vm_compute; reflexivity|].
  split.
  - eexists. split; [vm_compute; reflexivity|]. split; vm_compute; reflexivity.
  - unfold dropped. intros E. apply (f_equal sent) in E.
    vm_compute in E. discriminate.
Qed.

(** ** Scoring *)

Lemma count_correct_from value opp (l : list nat) (acc : Z) :
  fold_left
    (fun acc i =>
       match acc, Some opp with
       | Some correct, Some opp =>
           if bool_decide (String.get i value = String.get i (secret opp))
           then Some (correct + 1) else Some correct
       | _, _ => None
       end) l (Some acc)
  = Some (acc + Z.of_nat
            (length (filter (fun i => String.get i value
                                      = String.get i (secret opp)) l))).
Proof.
  revert acc. induction l as [|i l IH]; intros acc; simpl.
  - f_equal. lia.
  - rewrite filter_cons. case_bool_decide as Hi.
    + rewrite decide_True by done. rewrite IH. simpl length. f_equal. lia.
    + rewrite decide_False by done. apply IH.
Qed.

Lemma count_correct_spec value opp n :
  count_correct value (Some opp) n
  = Some (Z.of_nat (matching_positions value (secret opp) (Z.to_nat n))).
Proof. unfold count_correct, matching_positions. by rewrite count_correct_from. Qed.

Lemma count_correct_undefined value n :
  0 < n -> count_correct value None n = None.
Proof.
  intros Hn. unfold count_correct.
  destruct (Z.to_nat n) as [|k] eqn:E; [lia|]. simpl.
  generalize (seq 1 k). intros l. induction l; simpl; auto.
Qed.

Lemma index_from_range a x i :
  index_from a x i = -1 \/ i <= index_from a x i.
Proof.
  revert i. induction a as [|v a IH]; intros i; simpl; [by left|].
  case_bool_decide; [right; lia|].
  destruct (IH (i + 1)); [by left|right; lia].
Qed.

Lemma indexOf_zero a x :
  (indexOf a x =? 0) = bool_decide (js_index a 0 = Some x).
Proof.
  unfold indexOf, js_index. destruct a as [|v a]; simpl.
  - reflexivity.
  - case_bool_decide; [done|].
    destruct (index_from_range a x (0 + 1)); apply Z.eqb_neq; lia.
Qed.

Lemma well_formed_nonempty text n : well_formed text n = true -> 0 < n.
Proof.
  unfold well_formed, digits_only. intros [Hd Hl]%andb_prop.
  apply Z.eqb_eq in Hl. destruct text; [done|]. simpl in Hl. lia.
Qed.

(** ** Rooms after the timer helpers *)

Lemma with_turnTimer_same r : with_turnTimer r (turnTimer r) = r.
Proof. by destruct r. Qed.

Lemma startTurnTimer_own s roomId room :
  obj_get (rooms s) roomId = Some room ->
  startTurnTimer roomId s
  = mkServer
      (obj_set (rooms s) roomId (with_turnTimer room (Some (nextHandle s))))
      (<[nextHandle s := roomId]>
         (match turnTimer room with
          | Some old => delete old (pending s)
          | None => pending s
          end))
      (S (nextHandle s)).
Proof. intros Hr. unfold startTurnTimer. by rewrite (rooms_get_own _ _ _ Hr). Qed.

Lemma clearTurnTimer_own s roomId room :
  obj_get (rooms s) roomId = Some room ->
  obj_get (rooms (clearTurnTimer roomId s)) roomId
  = Some (with_turnTimer room None).
Proof.
  intros Hr. unfold clearTurnTimer. rewrite (rooms_get_own _ _ _ Hr).
  destruct (turnTimer room) eqn:E; simpl.
  - apply obj_get_set_eq.
  - by rewrite Hr, <- E, with_turnTimer_same.
Qed.

Lemma clearTurnTimer_other s roomId roomId' :
  roomId <> roomId' ->
  obj_get (rooms (clearTurnTimer roomId s)) roomId'
  = obj_get (rooms s) roomId'.
Proof.
  intros Hne. unfold clearTurnTimer.
  destruct (rooms_get s roomId); [|done..].
  destruct (turnTimer room); [|done]. simpl. by apply obj_get_set_ne.
Qed.

Lemma phase_active r :
  phase r = Active <-> started r = true /\ winner r = None.
Proof.
  unfold phase. destruct (started r), (winner r); simpl; split;
    (intros [? ?] || intros ?); try done.
Qed.

Ltac only_score :=
  let Hc := fresh "Hc" in
  intros ? ? ? Hc; simpl in Hc;
  repeat (destruct Hc as [Hc|Hc]); try discriminate Hc; try (by destruct Hc);
  injection Hc as _ _ <-; eauto.

(** C7 (guess scoring). In an Active session, when the active player
    submits a value of exactly codeLength digits, every guessResult score
    that is broadcast is the number of positions i in [0, codeLength) with
    value[i] equal to the opponent's secret[i], the opponent being the player
    named by turnOrder[1]; while that opponent is a player of the room the
    guessResult is the first message sent, and the guesser becomes the winner
    exactly when the score is codeLength. With codeLength 3 and secret 456:
    455 scores 2, 654 scores 1 (the middle digit agrees), and 456 scores 3,
    is followed by gameOver and leaves the room Finished with the guesser as
    winner. *)
Theorem guess_score :
  (forall (s : Server) (sid : SocketId) (roomId : RoomId) (value : string)
          (room : Room),
      obj_get (rooms s) roomId = Some room ->
      phase room = Active ->
      well_formed value (codeLength room) = true ->
      js_index (turnOrder room) 0 = Some sid ->
      let opponent :=
        obj_get (players room) (to_key (js_index (turnOrder room) 1)) in
      let score opp :=
        Z.of_nat (matching_positions value (secret opp)
                    (Z.to_nat (codeLength room))) in
      let o := handle s (Guess sid roomId value) in
      (forall from text c,
          In (ToRoom roomId (GuessResult from text c)) (sent o) ->
          exists opp, opponent = Some opp /\ c = score opp) /\
      (forall opp,
          opponent = Some opp ->
          (exists rest,
              sent o = ToRoom roomId (GuessResult sid value (score opp)) :: rest)
          /\
          (exists room',
              obj_get (rooms (after o)) roomId = Some room' /\
              winner room'
              = if score opp =? codeLength room then Some sid else None)))
  /\ sent (handle playing (Guess alice "ABCD" "455"))
     = [ToRoom "ABCD" (GuessResult alice "455" 2);
        ToRoom "ABCD" (TurnChanged "ABCD" (Some bob))]
  /\ sent (handle playing (Guess alice "ABCD" "654"))
     = [ToRoom "ABCD" (GuessResult alice "654" 1);
        ToRoom "ABCD" (TurnChanged "ABCD" (Some bob))]
  /\ (let o := handle playing (Guess alice "ABCD" "456") in
      status o = Returned /\
      sent o = [ToRoom "ABCD" (GuessResult alice "456" 3);
                ToRoom "ABCD" (GameOver alice "Alice" (Some bob) "Bob")] /\
      (phase <$> obj_get (rooms (after o)) "ABCD") = Some Finished /\
      (winner <$> obj_get (rooms (after o)) "ABCD") = Some (Some alice)).
Proof.
  split; [|vm_compute; repeat split; reflexivity].
  intros s sid roomId value room Hr [Hst Hw]%phase_active Hf Hturn.
  cbn zeta. cbn [handle]. unfold guess.
  rewrite (rooms_get_own _ _ _ Hr), Hst, well_formed_guards, Hf.
  rewrite indexOf_zero, bool_decide_eq_true_2 by done. simpl negb. cbv iota.
  destruct (obj_get (players room) (to_key (js_index (turnOrder room) 1)))
    as [opp|] eqn:Hopp.
  - rewrite count_correct_spec.
    set (score := Z.of_nat _).
    destruct (score =? codeLength room) eqn:Hwin.
    + destruct (obj_get (players room) sid); simpl.
      * split.
        { only_score. }
        intros ? [= <-]. split; [by eexists|]. eexists. split; [|shelve].
        erewrite clearTurnTimer_own; [|simpl; apply obj_get_set_eq]. done.
        Unshelve. subst score; by rewrite Hwin.
      * split.
        { only_score. }
        intros ? [= <-]. split; [by eexists|]. eexists.
        split; [apply obj_get_set_eq|]. subst score; by rewrite Hwin.
    + simpl. split.
      { only_score. }
      intros ? [= <-]. split; [by eexists|].
      erewrite startTurnTimer_own; [|simpl; apply obj_get_set_eq]. simpl.
      eexists. split; [apply obj_get_set_eq|]. subst score; by rewrite Hwin.
  - rewrite count_correct_undefined by by eapply well_formed_nonempty.
    simpl. split; [by intros ? ? ? []|done].
Qed.

Lemma guess_score_witness :
  exists rest,
    sent (handle playing (Guess alice "ABCD" "455"))
    = ToRoom "ABCD"
        (GuessResult alice "455"
           (Z.of_nat (matching_positions "455" "456" 3))) :: rest.
Proof.
  refine (proj1 (proj2 (proj1 guess_score playing alice "ABCD" "455"
                          playing_room _ _ _ _)
                   (mkPlayer "Bob" "456" true) _));
    vm_compute; reflexivity.
Defined.

(** C7 as stated does not hold in its second example: against the secret
    456 (code length 3) the guess 654 agrees in the middle position, so the
    score that is broadcast is 1 and no guessResult with score 0 is sent. *)
Lemma guess_654_does_not_score_zero :
  obj_get (rooms playing) "ABCD" = Some playing_room /\
  phase playing_room = Active /\
  codeLength playing_room = 3 /\
  js_index (turnOrder playing_room) 0 = Some alice /\
  obj_get (players playing_room) (to_key (js_index (turnOrder playing_room) 1))
  = Some (mkPlayer "Bob" "456" true) /\
  matching_positions "654" "456" 3 = 1%nat /\
  In (ToRoom "ABCD" (GuessResult alice "654" 1))
    (sent (handle playing (Guess alice "ABCD" "654"))) /\
  ~ In (ToRoom "ABCD" (GuessResult alice "654" 0))
      (sent (handle playing (Guess alice "ABCD" "654"))).
Proof.
  do 6 (split; [vm_compute; reflexivity|]).
  split.
  - vm_compute. left. reflexivity.
  - vm_compute. intros [H|[H|[]]]; discriminate.
Qed.

(** ** The session after a win, and after a departure *)

(** C1 (winner is set once). Evaluation of the handlers after a win: the
    room is Finished with Alice as winner; guess and skipTurn test only
    [started], so Alice can still pass the turn and Bob can still guess, and
    Bob's correct guess overwrites [winner] and sends a second gameOver. *)
Theorem winner_overwritten_after_finish :
  (phase <$> obj_get (rooms won) "ABCD") = Some Finished /\
  (winner <$> obj_get (rooms won) "ABCD") = Some (Some alice) /\
  let s1 := run won [SkipTurn alice "ABCD"] in
  let o := handle s1 (Guess bob "ABCD" "123") in
  status o = Returned /\
  sent o = [ToRoom "ABCD" (GuessResult bob "123" 3);
            ToRoom "ABCD" (GameOver bob "Bob" (Some alice) "Alice")] /\
  (winner <$> obj_get (rooms (after o)) "ABCD") = Some (Some bob).
Proof. vm_compute. repeat split; reflexivity. Qed.

(** C3 (guess outside Active). Evaluation of [guess] on a Finished room:
    the winner's next guess is scored and broadcast, the turn passes to the
    opponent and the state changes; only a room that has not started makes
    [guess] return at once. *)
Theorem guess_in_finished_room_is_processed :
  (phase <$> obj_get (rooms won) "ABCD") = Some Finished /\
  let o := handle won (Guess alice "ABCD" "000") in
  status o = Returned /\
  sent o = [ToRoom "ABCD" (GuessResult alice "000" 0);
            ToRoom "ABCD" (TurnChanged "ABCD" (Some bob))] /\
  (turnOrder <$> obj_get (rooms won) "ABCD") = Some [Some alice; Some bob] /\
  (turnOrder <$> obj_get (rooms (after o)) "ABCD")
  = Some [Some bob; Some alice] /\
  after o <> won.
Proof.
  vm_compute. repeat split; try reflexivity.
  intros E. discriminate E.
Qed.

(** C4 (timer cardinality). Evaluation of the timer table around a win:
    the win cancels the timer and leaves none, but a further guess in the
    Finished room reaches [startTurnTimer], so the Finished room holds a
    live timer again; when it fires the callback returns at its [winner]
    guard without rescheduling. *)
Theorem finished_room_gets_live_timer :
  pending won = ∅ /\
  let s1 := run won [Guess alice "ABCD" "000"] in
  (phase <$> obj_get (rooms s1) "ABCD") = Some Finished /\
  (turnTimer <$> obj_get (rooms s1) "ABCD") = Some (Some 1%nat) /\
  pending s1 !! 1%nat = Some "ABCD" /\
  let o := handle s1 (TimerExpiry 1%nat) in
  sent o = [] /\ pending (after o) = ∅.
Proof. vm_compute. repeat split; reflexivity. Qed.

(** C2 (no inbound action is fatal). Evaluation of [guess] after the
    opponent has left a two-player Active room: [turnOrder[1]] still names
    the departed player, [room.players[opponentId]] is [undefined], and the
    scoring loop throws on [opponent.secret] with nothing sent. joinRoom and
    setSecret with a room id that names an inherited property of the [rooms]
    object throw as well. *)
Theorem guess_after_opponent_left_throws :
  (phase <$> obj_get (rooms bob_gone) "ABCD") = Some Active /\
  (obj_keys <$> (players <$> obj_get (rooms bob_gone) "ABCD")) = Some [alice] /\
  (turnOrder <$> obj_get (rooms bob_gone) "ABCD")
  = Some [Some alice; Some bob] /\
  (forall value,
      well_formed value 3 = true ->
      handle bob_gone (Guess alice "ABCD" value) = throw bob_gone []) /\
  status (handle playing (JoinRoom bob "Bob" "constructor")) = ThrewTypeError /\
  status (handle playing (SetSecret bob "toString" "456" true))
  = ThrewTypeError.
Proof.
  split; [vm_compute; reflexivity|].
  split; [vm_compute; reflexivity|].
  split; [vm_compute; reflexivity|].
  split; [|split; vm_compute; reflexivity].
  intros value Hv.
  assert (Hr : obj_get (rooms bob_gone) "ABCD"
               = Some (with_players playing_room
                         [(alice, mkPlayer "Alice" "123" true)]))
    by (vm_compute; reflexivity).
  simpl. unfold guess. rewrite (rooms_get_own _ _ _ Hr).
  cbn [started with_players codeLength playing_room negb turnOrder players].
  rewrite well_formed_guards, Hv. cbn [negb].
  rewrite count_correct_undefined by lia. reflexivity.
Qed.

Lemma guess_after_opponent_left_throws_witness :
  handle bob_gone (Guess alice "ABCD" "456") = throw bob_gone [].
Proof.
  apply (proj1 (proj2 (proj2 (proj2 guess_after_opponent_left_throws)))).
  vm_compute. reflexivity.
Defined.

(** C6 (turn order names the current players). Evaluation of [disconnect]
    on a two-player Active room: the departed player is deleted from
    [players], [started] and [turnOrder] are left as they were, so the room
    is still Active and [turnOrder] is no permutation of its players' ids. *)
Theorem turnOrder_stale_after_disconnect :
  (phase <$> obj_get (rooms playing) "ABCD") = Some Active /\
  exists room,
    obj_get (rooms bob_gone) "ABCD" = Some room /\
    phase room = Active /\
    obj_keys (players room) = [alice] /\
    turnOrder room = [Some alice; Some bob] /\
    ~ Permutation (turnOrder room) (map Some (obj_keys (players room))).
Proof.
  split; [vm_compute; reflexivity|].
  eexists. split; [vm_compute; reflexivity|].
  split; [vm_compute; reflexivity|].
  split; [vm_compute; reflexivity|].
  split; [vm_compute; reflexivity|].
  intros HP. apply Permutation_length in HP. vm_compute in HP. discriminate.
Qed.

(** ** How one event changes a room *)

Section JsObjectKeys.
Context {V : Type}.
Implicit Types (o : list (string * V)) (k : string) (v : V).

Lemma obj_set_set o k v1 v2 : obj_set (obj_set o k v1) k v2 = obj_set o k v2.
Proof.
  induction o as [|[k0 v0] o IH]; simpl.
  - by rewrite String.eqb_refl.
  - destruct (String.eqb_spec k0 k) as [->|Hne]; simpl.
    + by rewrite String.eqb_refl.
    + destruct (String.eqb_spec k0 k); [done|]. by rewrite IH.
Qed.

Lemma obj_get_None o k : obj_get o k = None <-> k ∉ obj_keys o.
Proof.
  unfold obj_keys. induction o as [|[k0 v0] o IH]; simpl.
  - split; [intros _; apply not_elem_of_nil|done].
  - rewrite not_elem_of_cons.
    destruct (String.eqb_spec k0 k) as [->|Hne]; [split; [done|tauto]|].
    rewrite IH. split; [intros; split; congruence|tauto].
Qed.

Lemma obj_keys_set_elem o k v k' :
  k' ∈ obj_keys (obj_set o k v) <-> k' = k \/ k' ∈ obj_keys o.
Proof.
  unfold obj_keys. induction o as [|[k0 v0] o IH]; simpl.
  - rewrite elem_of_cons. split; intros [?|?]; auto.
  - destruct (String.eqb_spec k0 k) as [->|Hne]; simpl.
    + rewrite !elem_of_cons. tauto.
    + rewrite !elem_of_cons, IH. tauto.
Qed.

Lemma obj_keys_set_NoDup o k v :
  NoDup (obj_keys o) -> NoDup (obj_keys (obj_set o k v)).
Proof.
  induction o as [|[k0 v0] o IH]; simpl.
  - intros _. apply NoDup_singleton.
  - intros [Hk0 Ho]%NoDup_cons.
    destruct (String.eqb_spec k0 k) as [->|Hne]; simpl.
    + by apply NoDup_cons.
    + apply NoDup_cons. split; [|by apply IH].
      intros [?|?]%obj_keys_set_elem; [congruence|done].
Qed.

Lemma obj_keys_delete_elem o k k' :
  k' ∈ obj_keys (obj_delete o k) <-> k' <> k /\ k' ∈ obj_keys o.
Proof.
  unfold obj_keys. induction o as [|[k0 v0] o IH]; simpl.
  - split; [by intros ?%elem_of_nil|by intros [_ ?%elem_of_nil]].
  - destruct (String.eqb_spec k0 k) as [->|Hne]; simpl.
    + rewrite IH, elem_of_cons. split; [tauto|]. intros [? [?|?]]; tauto.
    + rewrite !elem_of_cons, IH. split; [intros [->|?]; tauto|tauto].
Qed.

Lemma obj_keys_delete_NoDup o k :
  NoDup (obj_keys o) -> NoDup (obj_keys (obj_delete o k)).
Proof.
  induction o as [|[k0 v0] o IH]; simpl; [done|].
  intros [Hk0 Ho]%NoDup_cons.
  destruct (String.eqb_spec k0 k) as [->|Hne]; simpl; [by apply IH|].
  apply NoDup_cons. split; [|by apply IH].
  intros [_ ?]%obj_keys_delete_elem. done.
Qed.
End JsObjectKeys.

Lemma room_step_refl r : room_step r r.
Proof.
  split; auto.
Qed.

Lemma updates_room_full s s' roomId :
  updates_room_by full_step s s' roomId -> updates_room s s' roomId.
Proof.
  intros [E|(r & r' & Hr & [Hstep _] & E)]; [by left|].
  right. by exists r, r'.
Qed.

Ltac room_updated :=
  right; eexists _, _; split; [eassumption|]; split;
  [|simpl; rewrite ?obj_set_set; reflexivity].

Ltac same_members :=
  intros ?; right; right; simpl; auto.

Lemma startTurnTimer_after_set s roomId r1 :
  rooms (startTurnTimer roomId (with_rooms s (obj_set (rooms s) roomId r1)))
  = obj_set (rooms s) roomId (with_turnTimer r1 (Some (nextHandle s))).
Proof.
  erewrite startTurnTimer_own by (simpl; apply obj_get_set_eq).
  simpl. by rewrite obj_set_set.
Qed.

Lemma clearTurnTimer_after_set s roomId r1 :
  rooms (clearTurnTimer roomId (with_rooms s (obj_set (rooms s) roomId r1)))
  = obj_set (rooms s) roomId (with_turnTimer r1 None).
Proof.
  unfold clearTurnTimer.
  rewrite (rooms_get_own _ roomId r1) by (simpl; apply obj_get_set_eq).
  destruct (turnTimer r1) eqn:E; simpl.
  - by rewrite obj_set_set.
  - by rewrite <- E, with_turnTimer_same.
Qed.

Lemma obj_keys_set_existing {V} (o : list (string * V)) k v v' :
  obj_get o k = Some v -> obj_keys (obj_set o k v') = obj_keys o.
Proof.
  induction o as [|[k0 v0] o IH]; simpl; [done|].
  destruct (String.eqb_spec k0 k) as [->|Hne]; simpl; [done|].
  intros H. by rewrite IH.
Qed.

Lemma two_keys {V} (o : list (string * V)) :
  length (obj_values o) = 2%nat -> exists a b, obj_keys o = [a; b].
Proof.
  destruct o as [|[a ?] [|[b ?] [|]]]; simpl; try done.
  intros _. by exists a, b.
Qed.

Lemma turnTimerCallback_updates_full s roomId :
  updates_room_by full_step s (after (turnTimerCallback roomId s)) roomId.
Proof.
  unfold turnTimerCallback.
  destruct (rooms_get s roomId) as [r| |] eqn:Hg; [|by left..].
  apply rooms_get_own_inv in Hg.
  destruct (negb (started r) || truthy (winner r)) eqn:Hguard; [by left|].
  apply orb_false_elim in Hguard as [Hst%negb_false_iff _].
  right. exists r. eexists. split; [done|]. split; [|apply startTurnTimer_after_set].
  split; [split; simpl; auto|same_members].
Qed.

Lemma joinRoom_updates_full s sid nm roomId :
  updates_room_by full_step s (after (joinRoom sid nm roomId s)) roomId.
Proof.
  unfold joinRoom.
  destruct (rooms_get s roomId) as [r| |] eqn:Hg; [|by left..].
  apply rooms_get_own_inv in Hg.
  destruct (2 <=? length (obj_keys (players r)))%nat eqn:Hfull; [by left|].
  room_updated. split; [split; simpl; auto|].
  intros Hst. right. left. split; [exact Hst|]. by apply Nat.leb_gt.
Qed.

Lemma skipTurn_updates_full s sid roomId :
  updates_room_by full_step s (after (skipTurn sid roomId s)) roomId.
Proof.
  unfold skipTurn.
  destruct (rooms_get s roomId) as [r| |] eqn:Hg; [|by left..].
  apply rooms_get_own_inv in Hg.
  destruct (started r) eqn:Hst; [|by left]. simpl.
  case_match; [by left|].
  room_updated. split; [split; simpl; auto|same_members].
Qed.

Lemma guess_updates_full s sid roomId value :
  updates_room_by full_step s (after (guess sid roomId value s)) roomId.
Proof.
  unfold guess.
  destruct (rooms_get s roomId) as [r| |] eqn:Hg; [|by left..].
  apply rooms_get_own_inv in Hg.
  destruct (started r) eqn:Hst; [|by left]. simpl.
  case_match; [by left|].
  rewrite indexOf_zero. case_bool_decide as Hturn; [|by left]. simpl.
  destruct (count_correct _ _ _) as [correct|]; [|by left].
  destruct (correct =? codeLength r).
  - destruct (obj_get (players r) sid) as [me|],
      (obj_get (players r) (to_key (js_index (turnOrder r) 1))) as [opp|].
    + right. exists r. eexists. split; [done|].
      split; [|apply clearTurnTimer_after_set].
      split; [split; simpl; auto|same_members].
    + room_updated. split; [split; simpl; auto|same_members].
    + room_updated. split; [split; simpl; auto|same_members].
    + room_updated. split; [split; simpl; auto|same_members].
  - right. exists r. eexists. split; [done|].
    split; [|apply startTurnTimer_after_set].
    split.
    + split; simpl; auto. intros _. left. split; [done|]. right.
      by rewrite Hturn.
    + intros _. right. right. simpl. split; [done|]. split; [done|].
      right. by rewrite Hturn.
Qed.

Lemma setSecret_updates_full s sid roomId sec coin :
  updates_room_by full_step s (after (setSecret sid roomId sec coin s)) roomId.
Proof.
  unfold setSecret.
  destruct (rooms_get s roomId) as [r| |] eqn:Hg; [|by left..].
  apply rooms_get_own_inv in Hg.
  destruct (obj_get (players r) sid) as [p|] eqn:Hp; [|by left].
  case_match; [by left|].
  set (p1 := mkPlayer (name p) sec true).
  pose proof (obj_keys_set_existing (players r) sid p p1 Hp) as Hkeys.
  set (ps := obj_set (players r) sid p1) in *.
  cbn [players with_players started].
  assert (Hsame : forall r1,
             r1 = with_players r ps -> full_step r r1).
  { intros r1 ->. split; [split; simpl; auto|].
    intros Hst. right. right. simpl in *. auto. }
  destruct ((length (obj_values ps) =? 2)%nat) eqn:Hlen; simpl.
  - destruct (forallb ready (obj_values ps)); simpl.
    + destruct (started r) eqn:Hst; simpl.
      * room_updated. by apply Hsame.
      * right. exists r. eexists. split; [done|].
        split; [|apply startTurnTimer_after_set].
        apply Nat.eqb_eq, two_keys in Hlen as (a & b & Hab).
        split.
        -- split; simpl; auto. intros _. right. rewrite Hab.
           destruct coin; simpl; eauto.
        -- intros _. left. simpl. rewrite Hab.
           destruct coin; simpl; [done|apply perm_swap].
    + room_updated. by apply Hsame.
  - room_updated. by apply Hsame.
Qed.

Lemma turnTimerCallback_updates s roomId :
  updates_room s (after (turnTimerCallback roomId s)) roomId.
Proof. apply updates_room_full, turnTimerCallback_updates_full. Qed.

Lemma joinRoom_updates s sid nm roomId :
  updates_room s (after (joinRoom sid nm roomId s)) roomId.
Proof. apply updates_room_full, joinRoom_updates_full. Qed.

Lemma skipTurn_updates s sid roomId :
  updates_room s (after (skipTurn sid roomId s)) roomId.
Proof. apply updates_room_full, skipTurn_updates_full. Qed.

Lemma guess_updates s sid roomId value :
  updates_room s (after (guess sid roomId value s)) roomId.
Proof. apply updates_room_full, guess_updates_full. Qed.

Lemma setSecret_updates s sid roomId sec coin :
  updates_room s (after (setSecret sid roomId sec coin s)) roomId.
Proof. apply updates_room_full, setSecret_updates_full. Qed.

Lemma createRoom_rooms s sid nm cl draws :
  rooms (after (createRoom sid nm cl draws s))
  = obj_set (rooms s) (generateRoomId draws) (created_room sid nm cl).
Proof. reflexivity. Qed.

(** ** The loop of [disconnect] *)

Lemma disconnect_room_get sid s out roomId room roomId' :
  roomId <> roomId' ->
  obj_get (rooms (disconnect_room sid (s, out) (roomId, room)).1) roomId'
  = obj_get (rooms s) roomId'.
Proof.
  intros Hne. unfold disconnect_room.
  destruct (obj_get (players room) sid); [|done].
  case_match; simpl.
  - rewrite obj_get_delete, decide_False by done.
    rewrite clearTurnTimer_other by done. simpl. by apply obj_get_set_ne.
  - by apply obj_get_set_ne.
Qed.

Lemma disconnect_room_here sid s out roomId room :
  obj_get (rooms s) roomId = Some room ->
  obj_get (rooms (disconnect_room sid (s, out) (roomId, room)).1) roomId
  = after_disconnect sid room.
Proof.
  intros Hr. unfold disconnect_room, after_disconnect.
  destruct (obj_get (players room) sid); [|done].
  case_match; simpl.
  - rewrite obj_get_delete. by rewrite decide_True.
  - apply obj_get_set_eq.
Qed.

Lemma disconnect_fold_rooms sid (l : list (RoomId * Room)) :
  forall (s : Server) (out : list Effect),
    NoDup (obj_keys l) ->
    (forall roomId room,
        obj_get l roomId = Some room -> obj_get (rooms s) roomId = Some room) ->
    forall roomId,
      obj_get (rooms (fold_left (disconnect_room sid) l (s, out)).1) roomId
      = match obj_get l roomId with
        | Some room => after_disconnect sid room
        | None => obj_get (rooms s) roomId
        end.
Proof.
  induction l as [|[k room] l IH]; intros s out Hnd Hsnap roomId; [done|].
  change (obj_keys ((k, room) :: l)) with (k :: obj_keys l) in Hnd.
  apply NoDup_cons in Hnd as [Hk Hnd]. cbn [fold_left].
  destruct (disconnect_room sid (s, out) (k, room)) as [s1 out1] eqn:E.
  assert (Hk' : obj_get l k = None) by by apply obj_get_None.
  rewrite IH; [|done|].
  - simpl. destruct (String.eqb_spec k roomId) as [->|Hne].
    + rewrite Hk'. change s1 with (s1, out1).1. rewrite <- E.
      apply disconnect_room_here, Hsnap. simpl. by rewrite String.eqb_refl.
    + destruct (obj_get l roomId); [done|].
      change s1 with (s1, out1).1. rewrite <- E.
      by apply disconnect_room_get.
  - intros rid' room' Hl.
    assert (k <> rid') by (intros ->; congruence).
    change s1 with (s1, out1).1. rewrite <- E.
    rewrite disconnect_room_get by done.
    apply Hsnap. simpl. by destruct (String.eqb_spec k rid').
Qed.

Lemma disconnect_rooms sid s roomId :
  NoDup (obj_keys (rooms s)) ->
  obj_get (rooms (after (disconnect sid s))) roomId
  = obj_get (rooms s) roomId ≫= after_disconnect sid.
Proof.
  intros Hnd. unfold disconnect.
  pose proof (disconnect_fold_rooms sid (rooms s) s [] Hnd (fun _ _ H => H) roomId) as H.
  destruct (fold_left _ _ _) as [s' out]. simpl in *. rewrite H.
  by destruct (obj_get (rooms s) roomId).
Qed.

Lemma after_disconnect_step sid r r' :
  after_disconnect sid r = Some r' -> room_step r r'.
Proof.
  unfold after_disconnect. destruct (obj_get (players r) sid).
  - case_match; [done|]. intros [= <-]. split; simpl; auto.
  - intros [= <-]. apply room_step_refl.
Qed.

(** ** One step of the server, room by room *)

Lemma updates_room_get s s' roomId roomId' r' :
  updates_room s s' roomId ->
  obj_get (rooms s') roomId' = Some r' ->
  exists r, obj_get (rooms s) roomId' = Some r /\ room_step r r'.
Proof.
  intros [E|(r & r1 & Hr & Hstep & E)] Hget; rewrite E in Hget.
  - exists r'. split; [done|apply room_step_refl].
  - rewrite obj_get_set in Hget. case_decide as Hk.
    + subst roomId'. injection Hget as <-. eauto.
    + exists r'. split; [done|apply room_step_refl].
Qed.

Lemma handle_room s e roomId r' :
  NoDup (obj_keys (rooms s)) ->
  ~ creates e roomId ->
  obj_get (rooms (after (handle s e))) roomId = Some r' ->
  exists r, obj_get (rooms s) roomId = Some r /\ room_step r r'.
Proof.
  intros Hnd Hc Hget.
  destruct e as [sid nm cl draws|sid nm rid|sid rid sec coin
                |sid rid value|sid rid|sid|h].
  - cbn [handle] in Hget. rewrite createRoom_rooms, obj_get_set_ne in Hget by done.
    exists r'. split; [done|apply room_step_refl].
  - eapply updates_room_get; [apply joinRoom_updates|done].
  - eapply updates_room_get; [apply setSecret_updates|done].
  - eapply updates_room_get; [apply guess_updates|done].
  - eapply updates_room_get; [apply skipTurn_updates|done].
  - cbn [handle] in Hget. rewrite disconnect_rooms in Hget by done.
    destruct (obj_get (rooms s) roomId) as [r|]; [|done]. cbn [handle] in Hget.
    exists r. split; [done|]. by eapply after_disconnect_step.
  - cbn [handle] in Hget. destruct (pending s !! h) as [rid|].
    + eapply (updates_room_get (with_pending s _));
        [apply turnTimerCallback_updates|done].
    + exists r'. split; [done|apply room_step_refl].
Qed.

Lemma disconnect_room_NoDup sid s out entry :
  NoDup (obj_keys (rooms s)) ->
  NoDup (obj_keys (rooms (disconnect_room sid (s, out) entry).1)).
Proof.
  intros Hnd. destruct entry as [roomId room]. unfold disconnect_room.
  destruct (obj_get (players room) sid); [|done].
  case_match; simpl.
  - apply obj_keys_delete_NoDup. unfold clearTurnTimer.
    destruct (rooms_get _ _); simpl; try by apply obj_keys_set_NoDup.
    destruct (turnTimer _); simpl; by repeat apply obj_keys_set_NoDup.
  - by apply obj_keys_set_NoDup.
Qed.

Lemma disconnect_fold_NoDup sid (l : list (RoomId * Room)) :
  forall s out,
    NoDup (obj_keys (rooms s)) ->
    NoDup (obj_keys (rooms (fold_left (disconnect_room sid) l (s, out)).1)).
Proof.
  induction l as [|entry l IH]; intros s out Hnd; [done|].
  cbn [fold_left].
  pose proof (disconnect_room_NoDup sid s out entry Hnd) as H1.
  destruct (disconnect_room sid (s, out) entry) as [s1 out1]. by apply IH.
Qed.

Lemma handle_NoDup s e :
  NoDup (obj_keys (rooms s)) ->
  NoDup (obj_keys (rooms (after (handle s e)))).
Proof.
  intros Hnd.
  assert (Hu : forall s' roomId, rooms s = rooms s -> updates_room s s' roomId ->
                                 NoDup (obj_keys (rooms s'))).
  { intros s' roomId _ [->|(r & r1 & _ & _ & ->)];
      [done|by apply obj_keys_set_NoDup]. }
  destruct e as [sid nm cl draws|sid nm rid|sid rid sec coin
                |sid rid value|sid rid|sid|h].
  - cbn [handle]. rewrite createRoom_rooms. by apply obj_keys_set_NoDup.
  - eapply Hu; [done|apply joinRoom_updates].
  - eapply Hu; [done|apply setSecret_updates].
  - eapply Hu; [done|apply guess_updates].
  - eapply Hu; [done|apply skipTurn_updates].
  - cbn [handle]. unfold disconnect.
    pose proof (disconnect_fold_NoDup sid (rooms s) s [] Hnd) as H.
    by destruct (fold_left _ _ _).
  - cbn [handle]. destruct (pending s !! h) as [rid|]; [|done].
    pose proof (turnTimerCallback_updates
                  (with_pending s (delete h (pending s))) rid) as H.
    eapply (Hu _ rid); [done|]. exact H.
Qed.

Lemma reachable_NoDup s : reachable s -> NoDup (obj_keys (rooms s)).
Proof.
  induction 1 as [|s e _ IH _]; [apply NoDup_nil_2|by apply handle_NoDup].
Qed.

Lemma room_step_phase r r' :
  room_step r r' -> (phase_rank (phase r) <= phase_rank (phase r'))%nat.
Proof.
  intros [_ Hs Hw _]. unfold phase.
  destruct (started r), (started r'), (winner r), (winner r');
    simpl; try lia; try (by specialize (Hs eq_refl)).
  by destruct Hw.
Qed.

(** C8 (phase monotonicity). Along any sequence of events that contains
    no createRoom generating this room's id (such an event would install a
    new session under the id), a room found in the table at the end was in
    the table at the beginning, and from the beginning to the end its
    started flag is not reset, its winner is not cleared, and its phase only
    moves forward in the order Lobby, Active, Finished. *)
Theorem phase_monotone
    (s : Server) (es : list Event) (roomId : RoomId) (r' : Room) :
  NoDup (obj_keys (rooms s)) ->
  Forall (fun e => ~ creates e roomId) es ->
  obj_get (rooms (run s es)) roomId = Some r' ->
  exists r,
    obj_get (rooms s) roomId = Some r /\
    (started r = true -> started r' = true) /\
    (winner r <> None -> winner r' <> None) /\
    (phase_rank (phase r) <= phase_rank (phase r'))%nat.
Proof.
  revert s. induction es as [|e es IH]; intros s Hnd Hes Hget.
  - exists r'. auto.
  - apply Forall_cons in Hes as [He Hes]. simpl in Hget.
    assert (Hone : forall r1, obj_get (rooms (after (handle s e))) roomId = Some r1 ->
              exists r, obj_get (rooms s) roomId = Some r /\
                        (started r = true -> started r1 = true) /\
                        (winner r <> None -> winner r1 <> None) /\
                        (phase_rank (phase r) <= phase_rank (phase r1))%nat).
    { intros r1 H1. destruct (handle_room s e roomId r1 Hnd He H1) as (r & Hr & Hstep).
      exists r. split; [done|]. pose proof (room_step_phase _ _ Hstep).
      destruct Hstep. auto. }
    destruct (status (handle s e)).
    + destruct (IH (after (handle s e)) (handle_NoDup s e Hnd) Hes Hget)
        as (r1 & Hr1 & Hs1 & Hw1 & Hp1).
      destruct (Hone r1 Hr1) as (r & Hr & Hs0 & Hw0 & Hp0).
      exists r. split; [done|]. split; [auto|]. split; [auto|lia].
    + by apply Hone.
Qed.

Lemma phase_monotone_witness :
  let final :=
    mkRoom
      [(alice, mkPlayer "Alice" "123" true); (bob, mkPlayer "Bob" "789" true)]
      3 true [Some bob; Some alice] (Some bob) None in
  exists r,
    obj_get (rooms playing) "ABCD" = Some r /\
    (started r = true -> started final = true) /\
    (winner r <> None -> winner final <> None) /\
    (phase_rank (phase r) <= phase_rank (phase final))%nat.
Proof.
  apply (phase_monotone playing
           [Guess alice "ABCD" "455"; TimerExpiry 1%nat;
            SkipTurn alice "ABCD"; SetSecret bob "ABCD" "789" false;
            Disconnect "Zz0stranger000000C03"; Guess bob "ABCD" "123"]
           "ABCD").
  - vm_compute. apply NoDup_singleton.
  - repeat constructor; intros [].
  - vm_compute. reflexivity.
Defined.

(** ** Reachable states *)

Lemma run_reachable es : forall s,
  reachable s -> returns s es = true -> reachable (run s es).
Proof.
  induction es as [|e es IH]; intros s Hs Hret; [done|]. simpl in *.
  destruct (status (handle s e)) eqn:E; [|done].
  apply IH; [|done]. by apply reachable_step.
Qed.

Lemma playing_reachable : reachable playing.
Proof. apply run_reachable; [apply reachable_init|]. vm_compute. reflexivity. Qed.

Lemma handle_room_or_created s e roomId r' :
  NoDup (obj_keys (rooms s)) ->
  obj_get (rooms (after (handle s e))) roomId = Some r' ->
  (exists r, obj_get (rooms s) roomId = Some r /\ room_step r r') \/
  (exists sid nm cl, r' = created_room sid nm cl).
Proof.
  intros Hnd Hget.
  destruct e as [sid nm cl draws| | | | | |];
    try (left; eapply handle_room; [done| |done]; by intros []).
  destruct (decide (generateRoomId draws = roomId)) as [<-|Hne].
  - cbn [handle] in Hget. rewrite createRoom_rooms, obj_get_set_eq in Hget.
    injection Hget as <-. right. eauto.
  - left. eapply handle_room; [done| |done]. exact Hne.
Qed.

Lemma room_step_two_turns r r' : room_step r r' -> two_turns r -> two_turns r'.
Proof.
  intros [_ _ _ Ht] Hr Hst'.
  destruct (Ht Hst') as [[Hst [E|E]]|?]; [| |done].
  - rewrite E. by apply Hr.
  - destruct (Hr Hst) as (a & b & Eab). rewrite E, Eab. by exists b, a.
Qed.

Lemma reachable_two_turns s :
  reachable s ->
  forall roomId r, obj_get (rooms s) roomId = Some r -> two_turns r.
Proof.
  induction 1 as [|s e Hs IH Hret]; intros roomId r' Hget; [done|].
  destruct (handle_room_or_created s e roomId r' (reachable_NoDup s Hs) Hget)
    as [(r & Hr & Hstep)|(sid & nm & cl & ->)].
  - eapply room_step_two_turns; eauto.
  - intros Hst. discriminate Hst.
Qed.

(** C9 (skipTurn frame condition). In a reachable state, skipTurn sent by
    the active player of an Active room returns, broadcasts one turnSkipped
    naming the two players, and leaves the room with turnOrder swapped and
    with the same players (hence secrets), codeLength, started flag, winner,
    phase and turnTimer handle; the table of pending timers, the next timer
    handle and every other room are unchanged, so the running turn timer is
    neither cancelled nor rescheduled. *)
Theorem skipTurn_frame
    (s : Server) (sid : SocketId) (roomId : RoomId) (room : Room) :
  reachable s ->
  obj_get (rooms s) roomId = Some room ->
  phase room = Active ->
  js_index (turnOrder room) 0 = Some sid ->
  exists waiting,
    turnOrder room = [Some sid; Some waiting] /\
    let o := handle s (SkipTurn sid roomId) in
    status o = Returned /\
    sent o = [ToRoom roomId (TurnSkipped (Some sid) (Some waiting))] /\
    pending (after o) = pending s /\
    nextHandle (after o) = nextHandle s /\
    (forall roomId', roomId' <> roomId ->
        obj_get (rooms (after o)) roomId' = obj_get (rooms s) roomId') /\
    exists room',
      obj_get (rooms (after o)) roomId = Some room' /\
      turnOrder room' = [Some waiting; Some sid] /\
      players room' = players room /\
      codeLength room' = codeLength room /\
      started room' = started room /\
      winner room' = winner room /\
      phase room' = phase room /\
      turnTimer room' = turnTimer room.
Proof.
  intros Hs Hr Hact Hturn.
  pose proof Hact as [Hst Hw]%phase_active.
  destruct (reachable_two_turns s Hs roomId room Hr Hst) as (a & b & Eab).
  assert (a = sid) as -> by (rewrite Eab in Hturn; by injection Hturn).
  exists b. split; [done|].
  cbn [handle]. unfold skipTurn.
  rewrite (rooms_get_own _ _ _ Hr), Hst, Hturn.
  rewrite bool_decide_eq_true_2 by done. cbn [negb].
  rewrite Eab. cbn.
  split; [done|]. split; [done|]. split; [done|]. split; [done|].
  split.
  - intros roomId' Hne. by apply obj_get_set_ne.
  - eexists. split; [apply obj_get_set_eq|]. by rewrite Hact.
Qed.

Lemma skipTurn_frame_witness :
  exists waiting,
    turnOrder playing_room = [Some alice; Some waiting] /\
    sent (handle playing (SkipTurn alice "ABCD"))
    = [ToRoom "ABCD" (TurnSkipped (Some alice) (Some waiting))] /\
    pending (after (handle playing (SkipTurn alice "ABCD"))) = pending playing.
Proof.
  destruct (skipTurn_frame playing alice "ABCD" playing_room)
    as (w & Hw & _ & Hsent & Hpend & _).
  - apply run_reachable; [apply reachable_init|vm_compute; reflexivity].
  - vm_compute. reflexivity.
  - vm_compute. reflexivity.
  - vm_compute. reflexivity.
  - exists w. auto.
Defined.

(** ** The turn timers *)

Lemma timers_inv_skip s roomId : timers_ok s -> timers_inv (Some roomId) s.
Proof.
  intros [T1 T2 T3 T4]. split; [done| |done..].
  intros rid r _. by apply T2.
Qed.

Lemma timers_inv_close s roomId :
  timers_inv (Some roomId) s ->
  (forall r, obj_get (rooms s) roomId = Some r -> phase r = Active ->
             exists h, turnTimer r = Some h /\ pending s !! h = Some roomId) ->
  timers_ok s.
Proof.
  intros [T1 T2 T3 T4] Hr. split; [done| |done..].
  intros rid r _ Hget Hact. destruct (decide (rid = roomId)) as [->|Hne].
  - by apply Hr.
  - apply T2; [congruence|done..].
Qed.

Lemma timers_inv_set skip s roomId r r1 :
  timers_inv skip s ->
  obj_get (rooms s) roomId = Some r ->
  turnTimer r1 = turnTimer r ->
  (started r = true -> started r1 = true) ->
  (skip = Some roomId \/ (phase r1 = Active -> phase r = Active)) ->
  timers_inv skip (with_rooms s (obj_set (rooms s) roomId r1)).
Proof.
  intros [T1 T2 T3 T4] Hr Ht Hst Hph. split; simpl.
  - intros h rid Hp. destruct (T1 h rid Hp) as (r0 & Hr0 & Ht0 & Hs0).
    rewrite obj_get_set. case_decide as Hk; [|eauto].
    subst rid. assert (r0 = r) as -> by congruence.
    exists r1. rewrite Ht. auto.
  - intros rid r' Hskip. rewrite obj_get_set. case_decide as Hk.
    + subst rid. intros [= <-] Hact. rewrite Ht.
      destruct Hph as [?|Hph]; [done|]. apply (T2 roomId r); auto.
    + by apply T2.
  - intros rid r' h. rewrite obj_get_set. case_decide as Hk.
    + subst rid. intros [= <-]. rewrite Ht. by apply (T3 roomId r).
    + apply T3.
  - intros rid1 rid2 r1' r2' h. rewrite !obj_get_set.
    repeat case_decide; subst; try congruence.
    + intros [= <-] H2 Ht1 Ht2. rewrite Ht in Ht1. eapply T4; eauto.
    + intros H1 [= <-] Ht1 Ht2. rewrite Ht in Ht2. eapply T4; eauto.
    + apply T4.
Qed.

Lemma pending_below s skip h roomId :
  timers_inv skip s -> pending s !! h = Some roomId -> (h < nextHandle s)%nat.
Proof.
  intros [T1 _ T3 _] Hp. destruct (T1 h roomId Hp) as (r & Hr & Ht & _).
  by apply (T3 roomId r).
Qed.

(** A pending timeout of another room is not the one this room holds. *)
Lemma pending_elsewhere s skip roomId r h rid :
  timers_inv skip s ->
  obj_get (rooms s) roomId = Some r ->
  pending s !! h = Some rid -> rid <> roomId ->
  turnTimer r <> Some h.
Proof.
  intros [T1 _ _ T4] Hr Hp Hne Ht.
  destruct (T1 h rid Hp) as (r0 & Hr0 & Ht0 & _).
  apply Hne. eapply T4; eauto.
Qed.

(** A pending timeout of this room is the one this room holds. *)
Lemma pending_here s skip roomId r h :
  timers_inv skip s ->
  obj_get (rooms s) roomId = Some r ->
  pending s !! h = Some roomId ->
  turnTimer r = Some h.
Proof.
  intros [T1 _ _ _] Hr Hp.
  destruct (T1 h roomId Hp) as (r0 & Hr0 & Ht0 & _). congruence.
Qed.

Lemma timers_inv_start s roomId r :
  timers_inv (Some roomId) s ->
  obj_get (rooms s) roomId = Some r ->
  started r = true ->
  timers_ok (startTurnTimer roomId s).
Proof.
  intros Hinv Hr Hst. pose proof Hinv as [T1 T2 T3 T4].
  rewrite (startTurnTimer_own _ _ _ Hr).
  set (pend := match turnTimer r with
               | Some old => delete old (pending s)
               | None => pending s
               end).
  assert (Hpend : forall h rid, pend !! h = Some rid ->
                    pending s !! h = Some rid /\ rid <> roomId).
  { intros h rid Hp. subst pend.
    assert (Hs : pending s !! h = Some rid /\ turnTimer r <> Some h).
    { destruct (turnTimer r) as [old|]; [|done].
      rewrite lookup_delete in Hp. case_decide; [done|]. split; congruence. }
    destruct Hs as [Hs Hold]. split; [done|]. intros ->.
    apply Hold. by eapply pending_here. }
  assert (Hother : forall h rid, rid <> roomId -> pending s !! h = Some rid ->
                     pend !! h = Some rid).
  { intros h rid Hne Hp. subst pend.
    pose proof (pending_elsewhere _ _ _ _ _ _ Hinv Hr Hp Hne) as Hh.
    destruct (turnTimer r) as [old|]; [|done].
    rewrite lookup_delete_ne; [done|]. congruence. }
  split; simpl.
  - intros h rid. rewrite lookup_insert. case_decide as Hh.
    + subst h. intros [= <-]. rewrite obj_get_set_eq. eauto.
    + intros [Hp Hne]%Hpend. rewrite obj_get_set_ne by done. by apply T1.
  - intros rid r' _. rewrite obj_get_set. case_decide as Hk.
    + subst rid. intros [= <-] _. exists (nextHandle s). split; [done|].
      apply lookup_insert_eq.
    + intros Hget Hact.
      destruct (T2 rid r' ltac:(congruence) Hget Hact) as (h & Ht & Hp).
      exists h. split; [done|]. rewrite lookup_insert_ne.
      * by apply Hother.
      * pose proof (pending_below _ _ _ _ Hinv Hp). lia.
  - intros rid r' h. rewrite obj_get_set. case_decide as Hk.
    + intros [= <-] [= <-]. lia.
    + intros Hget Ht. pose proof (T3 rid r' h Hget Ht). lia.
  - intros rid1 rid2 r1 r2 h. rewrite !obj_get_set.
    repeat case_decide; subst; try congruence.
    + intros [= <-] H2 [= <-] Ht2. pose proof (T3 _ _ _ H2 Ht2). lia.
    + intros H1 [= <-] Ht1 [= <-]. pose proof (T3 _ _ _ H1 Ht1). lia.
    + apply T4.
Qed.

Lemma timers_inv_clear s roomId r :
  timers_inv (Some roomId) s ->
  obj_get (rooms s) roomId = Some r ->
  timers_inv (Some roomId) (clearTurnTimer roomId s) /\
  (forall h, pending (clearTurnTimer roomId s) !! h <> Some roomId).
Proof.
  intros Hinv Hr. pose proof Hinv as [T1 T2 T3 T4].
  unfold clearTurnTimer. rewrite (rooms_get_own _ _ _ Hr).
  destruct (turnTimer r) as [old|] eqn:Eold.
  - assert (Hgone : forall h, delete old (pending s) !! h <> Some roomId).
    { intros h. rewrite lookup_delete. case_decide as Hh; [done|].
      intros Hp. pose proof (pending_here _ _ _ _ _ Hinv Hr Hp). congruence. }
    split; [split; simpl|exact Hgone].
    + intros h rid Hp. pose proof (Hgone h) as Hh.
      rewrite lookup_delete in Hp. case_decide; [done|].
      destruct (T1 h rid Hp) as (r0 & Hr0 & Ht0 & Hs0).
      rewrite obj_get_set_ne; [eauto|].
      intros <-. apply Hh. rewrite lookup_delete_ne; done.
    + intros rid r' Hskip. rewrite obj_get_set_ne by congruence.
      intros Hget Hact. destruct (T2 rid r' Hskip Hget Hact) as (h & Ht & Hp).
      exists h. split; [done|]. rewrite lookup_delete_ne; [done|].
      intros <-.
      by apply (pending_elsewhere _ _ _ _ _ _ Hinv Hr Hp ltac:(congruence)).
    + intros rid r' h. rewrite obj_get_set. case_decide as Hk.
      * by intros [= <-].
      * apply T3.
    + intros rid1 rid2 r1 r2 h. rewrite !obj_get_set.
      repeat case_decide; subst; try congruence.
      * by intros [= <-].
      * by intros _ [= <-].
      * apply T4.
  - split; [done|]. intros h Hp.
    pose proof (pending_here _ _ _ _ _ Hinv Hr Hp). congruence.
Qed.

Lemma timers_inv_delete s roomId :
  timers_inv (Some roomId) s ->
  (forall h, pending s !! h <> Some roomId) ->
  timers_ok (with_rooms s (obj_delete (rooms s) roomId)).
Proof.
  intros [T1 T2 T3 T4] Hnone. split; simpl.
  - intros h rid Hp. destruct (T1 h rid Hp) as (r0 & Hr0 & Ht0 & Hs0).
    rewrite obj_get_delete. case_decide; [|eauto]. subst. by destruct (Hnone h).
  - intros rid r' _. rewrite obj_get_delete. case_decide; [done|].
    apply T2. congruence.
  - intros rid r' h. rewrite obj_get_delete. case_decide; [done|]. apply T3.
  - intros rid1 rid2 r1 r2 h. rewrite !obj_get_delete.
    repeat case_decide; try done. apply T4.
Qed.

Lemma timers_inv_expire s h roomId :
  timers_ok s ->
  pending s !! h = Some roomId ->
  timers_inv (Some roomId) (with_pending s (delete h (pending s))).
Proof.
  intros [T1 T2 T3 T4] Hp. split; simpl; [| |done..].
  - intros h' rid. rewrite lookup_delete. case_decide; [done|]. apply T1.
  - intros rid r' Hskip Hget Hact.
    destruct (T2 rid r' ltac:(done) Hget Hact) as (h' & Ht & Hp').
    exists h'. split; [done|]. rewrite lookup_delete_ne; [done|].
    intros <-. congruence.
Qed.

Lemma timers_inv_create s roomId r0 :
  timers_ok s ->
  obj_get (rooms s) roomId = None ->
  turnTimer r0 = None -> started r0 = false ->
  timers_ok (with_rooms s (obj_set (rooms s) roomId r0)).
Proof.
  intros [T1 T2 T3 T4] Hfresh Ht0 Hs0. split; simpl.
  - intros h rid Hp. destruct (T1 h rid Hp) as (r & Hr & Ht & Hs).
    rewrite obj_get_set_ne; [eauto|]. congruence.
  - intros rid r' _. rewrite obj_get_set. case_decide.
    + intros [= <-] Hact%phase_active. destruct Hact. congruence.
    + by apply T2.
  - intros rid r' h. rewrite obj_get_set. case_decide.
    + intros [= <-]. congruence.
    + apply T3.
  - intros rid1 rid2 r1 r2 h. rewrite !obj_get_set.
    repeat case_decide; subst; try congruence. apply T4.
Qed.

Lemma timers_ok_set s roomId r r1 :
  timers_ok s ->
  obj_get (rooms s) roomId = Some r ->
  turnTimer r1 = turnTimer r ->
  (started r = true -> started r1 = true) ->
  (phase r1 = Active -> phase r = Active) ->
  timers_ok (with_rooms s (obj_set (rooms s) roomId r1)).
Proof. intros. eapply timers_inv_set; eauto. Qed.

Lemma timers_ok_set_start s roomId r r1 :
  timers_ok s ->
  obj_get (rooms s) roomId = Some r ->
  turnTimer r1 = turnTimer r ->
  started r1 = true ->
  timers_ok (startTurnTimer roomId (with_rooms s (obj_set (rooms s) roomId r1))).
Proof.
  intros Hok Hr Ht Hst.
  eapply (timers_inv_start _ roomId r1); [|simpl; apply obj_get_set_eq|done].
  eapply timers_inv_set; eauto using timers_inv_skip.
Qed.

Lemma joinRoom_timers s sid nm roomId :
  timers_ok s -> timers_ok (after (joinRoom sid nm roomId s)).
Proof.
  intros Hok. unfold joinRoom.
  destruct (rooms_get s roomId) as [r| |] eqn:Hg; [|done..].
  apply rooms_get_own_inv in Hg. case_match; [done|].
  simpl. by eapply timers_ok_set.
Qed.

Lemma skipTurn_timers s sid roomId :
  timers_ok s -> timers_ok (after (skipTurn sid roomId s)).
Proof.
  intros Hok. unfold skipTurn.
  destruct (rooms_get s roomId) as [r| |] eqn:Hg; [|done..].
  apply rooms_get_own_inv in Hg.
  destruct (started r) eqn:Hst; [|done]. simpl.
  case_match; [done|]. simpl. by eapply timers_ok_set.
Qed.

Lemma setSecret_timers s sid roomId sec coin :
  timers_ok s -> timers_ok (after (setSecret sid roomId sec coin s)).
Proof.
  intros Hok. unfold setSecret.
  destruct (rooms_get s roomId) as [r| |] eqn:Hg; [|done..].
  apply rooms_get_own_inv in Hg.
  destruct (obj_get (players r) sid) as [p|]; [|done].
  case_match; [done|].
  set (ps := obj_set (players r) sid _).
  cbn [players with_players started].
  destruct ((length (obj_values ps) =? 2)%nat && forallb ready (obj_values ps)
            && negb (started r)) eqn:Hgo.
  - simpl. by eapply timers_ok_set_start.
  - simpl. by eapply timers_ok_set.
Qed.

Lemma guess_timers s sid roomId value :
  timers_ok s -> timers_ok (after (guess sid roomId value s)).
Proof.
  intros Hok. unfold guess.
  destruct (rooms_get s roomId) as [r| |] eqn:Hg; [|done..].
  apply rooms_get_own_inv in Hg.
  destruct (started r) eqn:Hst; [|done]. simpl.
  case_match; [done|]. case_match; [done|].
  destruct (count_correct _ _ _) as [correct|]; [|done].
  assert (Hwon : timers_inv (Some roomId)
                   (with_rooms s (obj_set (rooms s) roomId (with_winner r (Some sid))))).
  { eapply timers_inv_set; eauto using timers_inv_skip. }
  assert (Hthrow : timers_ok
                     (with_rooms s (obj_set (rooms s) roomId (with_winner r (Some sid))))).
  { eapply timers_ok_set; eauto. by intros [_ ?]%phase_active. }
  destruct (correct =? codeLength r).
  - destruct (obj_get (players r) sid) as [me|],
      (obj_get (players r) (to_key (js_index (turnOrder r) 1))) as [opp|];
      try exact Hthrow.
    simpl.
    destruct (timers_inv_clear _ roomId _ Hwon (obj_get_set_eq _ _ _))
      as [Hinv Hnone].
    eapply timers_inv_close; [exact Hinv|].
    intros r' Hr' [_ Hw]%phase_active.
    erewrite clearTurnTimer_own in Hr' by (simpl; apply obj_get_set_eq).
    injection Hr' as <-. done.
  - simpl. by eapply timers_ok_set_start.
Qed.

Lemma turnTimerCallback_timers s h roomId :
  timers_ok s ->
  pending s !! h = Some roomId ->
  timers_ok
    (after (turnTimerCallback roomId (with_pending s (delete h (pending s))))).
Proof.
  intros Hok Hp. pose proof (timers_inv_expire s h roomId Hok Hp) as Hinv.
  set (s0 := with_pending s (delete h (pending s))) in *.
  unfold turnTimerCallback.
  destruct (rooms_get s0 roomId) as [r| |] eqn:Hg.
  - apply rooms_get_own_inv in Hg.
    destruct (negb (started r) || truthy (winner r)) eqn:Hguard.
    + simpl. eapply timers_inv_close; [exact Hinv|].
      intros r' Hr' [Hst Hw]%phase_active.
      assert (r' = r) as -> by congruence.
      rewrite Hst, Hw in Hguard. discriminate.
    + apply orb_false_elim in Hguard as [Hst%negb_false_iff _].
      cbn [after ret].
      eapply (timers_inv_start _ roomId); [|simpl; apply obj_get_set_eq|done].
      eapply timers_inv_set; eauto.
  - simpl. eapply timers_inv_close; [exact Hinv|].
    intros r' Hr'. unfold rooms_get in Hg. rewrite Hr' in Hg. discriminate.
  - simpl. eapply timers_inv_close; [exact Hinv|].
    intros r' Hr'. unfold rooms_get in Hg. rewrite Hr' in Hg. discriminate.
Qed.

Lemma disconnect_room_timers sid s out roomId room :
  timers_ok s ->
  obj_get (rooms s) roomId = Some room ->
  timers_ok (disconnect_room sid (s, out) (roomId, room)).1.
Proof.
  intros Hok Hr. unfold disconnect_room.
  destruct (obj_get (players room) sid); [|done].
  set (room1 := with_players room _).
  case_match; simpl.
  - assert (Hinv : timers_inv (Some roomId)
                     (with_rooms s (obj_set (rooms s) roomId room1))).
    { eapply timers_inv_set; eauto using timers_inv_skip. }
    destruct (timers_inv_clear _ roomId _ Hinv (obj_get_set_eq _ _ _))
      as [Hinv' Hnone].
    by apply timers_inv_delete.
  - by eapply timers_ok_set.
Qed.

Lemma disconnect_fold_timers sid (l : list (RoomId * Room)) :
  forall s out,
    NoDup (obj_keys l) ->
    (forall roomId room,
        obj_get l roomId = Some room -> obj_get (rooms s) roomId = Some room) ->
    timers_ok s ->
    timers_ok (fold_left (disconnect_room sid) l (s, out)).1.
Proof.
  induction l as [|[k room] l IH]; intros s out Hnd Hsnap Hok; [done|].
  change (obj_keys ((k, room) :: l)) with (k :: obj_keys l) in Hnd.
  apply NoDup_cons in Hnd as [Hk Hnd]. cbn [fold_left].
  assert (Hhere : obj_get (rooms s) k = Some room).
  { apply Hsnap. simpl. by rewrite String.eqb_refl. }
  pose proof (disconnect_room_timers sid s out k room Hok Hhere) as Hok1.
  assert (Hrest : forall rid' room',
             obj_get l rid' = Some room' ->
             obj_get (rooms (disconnect_room sid (s, out) (k, room)).1) rid'
             = Some room').
  { intros rid' room' Hl.
    assert (k <> rid').
    { intros ->. apply Hk. apply dec_stable. intros Hn.
      apply obj_get_None in Hn. congruence. }
    rewrite disconnect_room_get by done.
    apply Hsnap. simpl. by destruct (String.eqb_spec k rid'). }
  destruct (disconnect_room sid (s, out) (k, room)) as [s1 out1].
  by apply IH.
Qed.

Lemma disconnect_timers sid s :
  NoDup (obj_keys (rooms s)) -> timers_ok s ->
  timers_ok (after (disconnect sid s)).
Proof.
  intros Hnd Hok. unfold disconnect.
  pose proof (disconnect_fold_timers sid (rooms s) s [] Hnd (fun _ _ H => H) Hok).
  by destruct (fold_left _ _ _).
Qed.

(** The timer discipline is kept by every event, a [createRoom] that
    generates the id of a room still in the table excepted. *)
Lemma handle_timers s e :
  NoDup (obj_keys (rooms s)) ->
  (forall roomId, creates e roomId -> obj_get (rooms s) roomId = None) ->
  timers_ok s ->
  timers_ok (after (handle s e)).
Proof.
  intros Hnd Hfresh Hok.
  destruct e as [sid nm cl draws|sid nm rid|sid rid sec coin
                |sid rid value|sid rid|sid|h]; cbn [handle].
  - apply (timers_inv_create s (generateRoomId draws) (created_room sid nm cl));
      [done| |done..].
    by apply Hfresh.
  - by apply joinRoom_timers.
  - by apply setSecret_timers.
  - by apply guess_timers.
  - by apply skipTurn_timers.
  - by apply disconnect_timers.
  - destruct (pending s !! h) as [rid|] eqn:Hp; [|done].
    by apply turnTimerCallback_timers.
Qed.

Lemma reachable_fresh_reachable s : reachable_fresh s -> reachable s.
Proof. induction 1; [constructor|by constructor]. Qed.

Lemma init_timers : timers_ok init.
Proof. split; simpl; intros *; by rewrite ?lookup_empty. Qed.

Lemma reachable_fresh_timers s : reachable_fresh s -> timers_ok s.
Proof.
  induction 1 as [|s e Hs IH Hfresh _]; [apply init_timers|].
  apply handle_timers; [|done..].
  by apply reachable_NoDup, reachable_fresh_reachable.
Qed.

(** X17 (timer cardinality where it holds). In a state reached without
    room-id collisions, a Lobby room has no pending timer, an Active room has
    exactly one, and in any phase a room has at most one, namely the one
    whose handle it holds. *)
Lemma timer_cardinality s roomId r :
  reachable_fresh s ->
  obj_get (rooms s) roomId = Some r ->
  (forall h h', pending s !! h = Some roomId -> pending s !! h' = Some roomId ->
                h = h') /\
  (phase r = Lobby -> forall h, pending s !! h <> Some roomId) /\
  (phase r = Active ->
   exists h, turnTimer r = Some h /\ pending s !! h = Some roomId).
Proof.
  intros Hs Hr. pose proof (reachable_fresh_timers s Hs) as Hok.
  pose proof Hok as [T1 T2 _ _]. split; [|split].
  - intros h h' Hp Hp'.
    pose proof (pending_here _ _ _ _ _ Hok Hr Hp).
    pose proof (pending_here _ _ _ _ _ Hok Hr Hp'). congruence.
  - intros Hl h Hp. destruct (T1 h roomId Hp) as (r0 & Hr0 & _ & Hst).
    assert (r0 = r) as -> by congruence.
    unfold phase in Hl. rewrite Hst in Hl. simpl in Hl. by destruct (winner r).
  - intros Hact. by apply (T2 roomId r).
Qed.

(** X18 (startTurnTimer replaces the timeout). [startTurnTimer] cancels
    the timeout the room holds before it schedules the new one under the
    next handle. *)
Lemma startTurnTimer_cancels_previous s roomId r old :
  obj_get (rooms s) roomId = Some r ->
  turnTimer r = Some old ->
  old <> nextHandle s ->
  pending (startTurnTimer roomId s) !! old = None /\
  pending (startTurnTimer roomId s) !! nextHandle s = Some roomId.
Proof.
  intros Hr Hold Hne. rewrite (startTurnTimer_own _ _ _ Hr), Hold. simpl.
  split; [|apply lookup_insert_eq].
  rewrite lookup_insert_ne by done. apply lookup_delete_eq.
Qed.

(** ** Room-scoped actions touch one room *)

(** X19 (room-scoped actions). joinRoom, setSecret, guess and skipTurn,
    well-formed or not, leave every room other than the one they address as
    it was. *)
Lemma addressed_room_only s e roomId roomId' :
  match e with
  | JoinRoom _ _ rid | SetSecret _ rid _ _ | Guess _ rid _ | SkipTurn _ rid =>
      rid = roomId
  | _ => False
  end ->
  roomId' <> roomId ->
  obj_get (rooms (after (handle s e))) roomId' = obj_get (rooms s) roomId'.
Proof.
  intros He Hne.
  assert (Hu : updates_room s (after (handle s e)) roomId).
  { destruct e; try done; subst; cbn [handle];
      auto using joinRoom_updates, setSecret_updates, guess_updates,
                 skipTurn_updates. }
  destruct Hu as [->|(r & r1 & _ & _ & ->)]; [done|].
  by apply obj_get_set_ne.
Qed.

(** ** Turn order and membership *)

Lemma reachable_staying_reachable s : reachable_staying s -> reachable s.
Proof. induction 1; [constructor|by constructor]. Qed.

Lemma updates_room_by_get R s s' roomId roomId' r' :
  updates_room_by R s s' roomId ->
  obj_get (rooms s') roomId' = Some r' ->
  exists r, obj_get (rooms s) roomId' = Some r /\ (r' = r \/ R r r').
Proof.
  intros [E|(r & r1 & Hr & Hstep & E)] Hget; rewrite E in Hget.
  - exists r'. auto.
  - rewrite obj_get_set in Hget. case_decide as Hk.
    + subst roomId'. injection Hget as <-. eauto.
    + exists r'. auto.
Qed.

Lemma members_step_keeps r r' :
  two_turns r -> turn_members r -> members_step r r' -> turn_members r'.
Proof.
  intros Ht Hm Hstep Hst'.
  destruct (Hstep Hst') as [P|[[Hst Hlen]|(Hk & Hst & [E|E])]].
  - exact P.
  - destruct (Ht Hst) as (a & b & Eab).
    pose proof (Permutation_length (Hm Hst)) as Hl.
    rewrite Eab, length_map in Hl. simpl in Hl. lia.
  - rewrite E, Hk. by apply Hm.
  - destruct (Ht Hst) as (a & b & Eab).
    rewrite E, Hk, Eab. cbn.
    etrans; [apply perm_swap|]. rewrite <- Eab. by apply Hm.
Qed.

(** Turn-order membership where it holds: as long as no player of a
    started room disconnects, the [turnOrder] of every started room is a
    permutation of the ids of its players. *)
Lemma reachable_staying_members s :
  reachable_staying s ->
  forall roomId r, obj_get (rooms s) roomId = Some r -> turn_members r.
Proof.
  induction 1 as [|s e Hs IH Hstay Hret]; intros roomId r' Hget; [done|].
  pose proof (reachable_staying_reachable s Hs) as Hreach.
  assert (Hfull : forall rid,
             updates_room_by full_step s (after (handle s e)) rid ->
             turn_members r').
  { intros rid Hu.
    destruct (updates_room_by_get _ _ _ _ _ _ Hu Hget) as (r & Hr & [->|[_ Hm]]);
      [by eapply IH|].
    eapply members_step_keeps; [|by eapply IH|done].
    by eapply reachable_two_turns. }
  destruct e as [sid nm cl draws|sid nm rid|sid rid sec coin
                |sid rid value|sid rid|sid|h]; cbn [handle] in *.
  - rewrite createRoom_rooms, obj_get_set in Hget. case_decide.
    + injection Hget as <-. intros Hst. discriminate Hst.
    + by eapply IH.
  - eapply Hfull, joinRoom_updates_full.
  - eapply Hfull, setSecret_updates_full.
  - eapply Hfull, guess_updates_full.
  - eapply Hfull, skipTurn_updates_full.
  - rewrite disconnect_rooms in Hget by by apply reachable_NoDup.
    destruct (obj_get (rooms s) roomId) as [r|] eqn:Hr; [|done].
    simpl in Hget. unfold after_disconnect in Hget.
    destruct (obj_get (players r) sid) eqn:Hin.
    + case_match; [done|]. injection Hget as <-. intros Hst. simpl in Hst.
      destruct Hstay. exists roomId, r. rewrite Hin. auto.
    + injection Hget as <-. by eapply IH.
  - destruct (pending s !! h) as [rid|]; [|by eapply IH].
    eapply (Hfull rid).
    apply (turnTimerCallback_updates_full (with_pending s (delete h (pending s)))).
Qed.

(** ** When the handlers return *)

Lemma obj_get_member {V} (o : list (string * V)) k :
  k ∈ obj_keys o -> exists v, obj_get o k = Some v.
Proof.
  intros Hin. destruct (obj_get o k) eqn:E; [eauto|].
  by apply obj_get_None in E.
Qed.

Lemma turn_members_players r a b :
  turnOrder r = [Some a; Some b] ->
  Permutation (turnOrder r) (map Some (obj_keys (players r))) ->
  (exists pa, obj_get (players r) a = Some pa) /\
  (exists pb, obj_get (players r) b = Some pb).
Proof.
  intros E HP. rewrite E in HP.
  assert (Hin : forall x, Some x ∈ [Some a; Some b] -> x ∈ obj_keys (players r)).
  { intros x Hx. rewrite HP in Hx.
    apply list_elem_of_fmap in Hx as (y & [= ->] & Hy). done. }
  split; apply obj_get_member, Hin; set_solver.
Qed.


(** ** Who assigns [winner] *)

Ltac winner_kept := room_updated; reflexivity.

Lemma turnTimerCallback_keeps_winner s roomId :
  updates_room_by keeps_winner s (after (turnTimerCallback roomId s)) roomId.
Proof.
  unfold turnTimerCallback.
  destruct (rooms_get s roomId) as [r| |] eqn:Hg; [|by left..].
  apply rooms_get_own_inv in Hg. case_match; [by left|].
  right. exists r. eexists. split; [done|].
  split; [|apply startTurnTimer_after_set]. reflexivity.
Qed.

Lemma joinRoom_keeps_winner s sid nm roomId :
  updates_room_by keeps_winner s (after (joinRoom sid nm roomId s)) roomId.
Proof.
  unfold joinRoom.
  destruct (rooms_get s roomId) as [r| |] eqn:Hg; [|by left..].
  apply rooms_get_own_inv in Hg. case_match; [by left|]. winner_kept.
Qed.

Lemma skipTurn_keeps_winner s sid roomId :
  updates_room_by keeps_winner s (after (skipTurn sid roomId s)) roomId.
Proof.
  unfold skipTurn.
  destruct (rooms_get s roomId) as [r| |] eqn:Hg; [|by left..].
  apply rooms_get_own_inv in Hg.
  do 2 (case_match; [by left|]). winner_kept.
Qed.

Lemma setSecret_keeps_winner s sid roomId sec coin :
  updates_room_by keeps_winner s (after (setSecret sid roomId sec coin s)) roomId.
Proof.
  unfold setSecret.
  destruct (rooms_get s roomId) as [r| |] eqn:Hg; [|by left..].
  apply rooms_get_own_inv in Hg.
  destruct (obj_get (players r) sid) as [p|]; [|by left].
  case_match; [by left|].
  case_match; [|winner_kept].
  right. exists r. eexists. split; [done|].
  split; [|apply startTurnTimer_after_set]. reflexivity.
Qed.

(** X21 (who assigns winner). [winner] is assigned by [guess] and by
    nothing else: joinRoom, setSecret, skipTurn, disconnect and the expiry
    of a timer leave the winner of every room that stays in the table as it
    was. *)
Lemma winner_assigned_only_by_guess s e roomId r' :
  NoDup (obj_keys (rooms s)) ->
  match e with
  | Guess _ _ _ => False
  | CreateRoom _ _ _ draws => generateRoomId draws <> roomId
  | _ => True
  end ->
  obj_get (rooms (after (handle s e))) roomId = Some r' ->
  exists r, obj_get (rooms s) roomId = Some r /\ winner r' = winner r.
Proof.
  intros Hnd He Hget.
  assert (Hu : forall rid,
             updates_room_by keeps_winner s (after (handle s e)) rid ->
             exists r, obj_get (rooms s) roomId = Some r /\ winner r' = winner r).
  { intros rid Hu.
    destruct (updates_room_by_get _ _ _ _ _ _ Hu Hget) as (r & Hr & [->|Hw]);
      eauto. }
  destruct e as [sid nm cl draws|sid nm rid|sid rid sec coin
                |sid rid value|sid rid|sid|h]; cbn [handle] in *.
  - rewrite createRoom_rooms, obj_get_set_ne in Hget by done. eauto.
  - eapply Hu, joinRoom_keeps_winner.
  - eapply Hu, setSecret_keeps_winner.
  - done.
  - eapply Hu, skipTurn_keeps_winner.
  - rewrite disconnect_rooms in Hget by done.
    destruct (obj_get (rooms s) roomId) as [r|]; [|done].
    exists r. split; [done|]. simpl in Hget. unfold after_disconnect in Hget.
    repeat case_match; by simplify_eq.
  - destruct (pending s !! h) as [rid|]; [|eauto].
    eapply (Hu rid).
    apply (turnTimerCallback_keeps_winner (with_pending s (delete h (pending s)))).
Qed.

(** ** Generated room ids *)

Lemma chars_get k :
  (k < 31)%nat ->
  exists c, String.get k chars = Some c /\ In c (list_ascii_of_string chars).
Proof.
  intros Hk.
  do 31 (destruct k as [|k];
         [eexists; split; [reflexivity|vm_compute; tauto]|]).
  lia.
Qed.

(** X1 (generateRoomId). Whatever the random draws, the generated room id
    has exactly four characters, each of them taken from the alphabet
    ABCDEFGHJKMNPQRSTUVWXYZ23456789, and it is never the name of a property
    inherited by the [rooms] object. *)
Theorem generateRoomId_shape (draws : list nat) :
  String.length (generateRoomId draws) = 4%nat /\
  Forall (fun c => In c (list_ascii_of_string chars))
    (list_ascii_of_string (generateRoomId draws)) /\
  ~ In (generateRoomId draws) object_prototype_names.
Proof.
  unfold generateRoomId. cbn [fold_left seq].
  change (String.length chars) with 31%nat.
  destruct (chars_get (nth 0 draws 0%nat mod 31)) as (c0 & -> & H0);
    [apply Nat.mod_upper_bound; lia|].
  destruct (chars_get (nth 1 draws 0%nat mod 31)) as (c1 & -> & H1);
    [apply Nat.mod_upper_bound; lia|].
  destruct (chars_get (nth 2 draws 0%nat mod 31)) as (c2 & -> & H2);
    [apply Nat.mod_upper_bound; lia|].
  destruct (chars_get (nth 3 draws 0%nat mod 31)) as (c3 & -> & H3);
    [apply Nat.mod_upper_bound; lia|].
  cbn [String.append]. split; [reflexivity|]. split.
  - cbn [list_ascii_of_string].
    repeat (apply Forall_cons; split; [assumption|]). apply Forall_nil_2.
  - intros Hin. simpl in Hin.
    repeat (destruct Hin as [Hin|Hin]; [apply (f_equal String.length) in Hin;
                                        simpl in Hin; discriminate Hin|]).
    exact Hin.
Qed.

(** ** createRoom and joinRoom *)

(** X2 (createRoom). createRoom always returns; it joins the sender to
    the channel of the generated id and answers roomCreated with that id and
    the code length, which is 3 when none or 0 was sent and the sent number
    otherwise (a negative one included). Whatever was stored under the id
    before, the table then holds there a room that has not started, with the
    creator as its only player (no secret, not ready), an empty turnOrder, no
    winner and no timer; every other room, the pending timers and the next
    timer handle are as before. *)
Theorem createRoom_outcome
    (s : Server) (sid : SocketId) (nm : string) (cl : option Z)
    (draws : list nat) :
  let roomId := generateRoomId draws in
  let o := handle s (CreateRoom sid nm cl draws) in
  status o = Returned /\
  sent o = [JoinChannel sid roomId;
            ToSocket sid (RoomCreated roomId (codeLength_or_3 cl))] /\
  obj_get (rooms (after o)) roomId
  = Some (mkRoom [(sid, mkPlayer nm "" false)] (codeLength_or_3 cl)
            false [] None None) /\
  (forall roomId', roomId' <> roomId ->
      obj_get (rooms (after o)) roomId' = obj_get (rooms s) roomId') /\
  pending (after o) = pending s /\
  nextHandle (after o) = nextHandle s.
Proof.
  cbn zeta. cbn [handle]. split; [done|]. split; [done|].
  rewrite createRoom_rooms. split; [apply obj_get_set_eq|].
  split; [|done]. intros roomId' Hne. by apply obj_get_set_ne.
Qed.

(** X3 (joinRoom). joinRoom answers "Raum nicht gefunden." to the sender
    alone when the id resolves to nothing, and "Raum ist voll." when the room
    already has two players; in both cases nothing changes. Otherwise,
    whatever the phase of the room, the sender is stored as a player without
    secret and not ready (an entry the socket already had is reset), the
    roster of all players goes to the room together with its code length, and
    the room's other fields, the other rooms and the timers are untouched. *)
Theorem joinRoom_outcome
    (s : Server) (sid : SocketId) (nm : string) (roomId : RoomId) :
  let o := handle s (JoinRoom sid nm roomId) in
  (rooms_get s roomId = Undefined ->
   o = ret s [ToSocket sid (ErrorMessage "Raum nicht gefunden.")]) /\
  (forall room,
      obj_get (rooms s) roomId = Some room ->
      (2 <= length (obj_keys (players room)))%nat ->
      o = ret s [ToSocket sid (ErrorMessage "Raum ist voll.")]) /\
  (forall room,
      obj_get (rooms s) roomId = Some room ->
      (length (obj_keys (players room)) < 2)%nat ->
      let ps := obj_set (players room) sid (mkPlayer nm "" false) in
      status o = Returned /\
      sent o = [JoinChannel sid roomId;
                ToRoom roomId
                  (RoomJoined roomId (codeLength room)
                     (map (fun e => (fst e, name (snd e))) ps))] /\
      obj_get ps sid = Some (mkPlayer nm "" false) /\
      obj_get (rooms (after o)) roomId = Some (with_players room ps) /\
      (forall roomId', roomId' <> roomId ->
          obj_get (rooms (after o)) roomId' = obj_get (rooms s) roomId') /\
      pending (after o) = pending s).
Proof.
  cbn zeta. cbn [handle]. unfold joinRoom. split; [|split].
  - by intros ->.
  - intros room Hr Hfull. rewrite (rooms_get_own _ _ _ Hr).
    by rewrite (proj2 (Nat.leb_le _ _) Hfull).
  - intros room Hr Hfree. rewrite (rooms_get_own _ _ _ Hr).
    rewrite (proj2 (Nat.leb_gt _ _) Hfree). simpl.
    split; [done|]. split; [done|]. split; [apply obj_get_set_eq|].
    split; [apply obj_get_set_eq|]. split; [|done].
    intros roomId' Hne. by apply obj_get_set_ne.
Qed.

Lemma joinRoom_outcome_witness :
  handle playing (JoinRoom "Zz0stranger000000C03" "Carol" "ABCD")
  = ret playing [ToSocket "Zz0stranger000000C03" (ErrorMessage "Raum ist voll.")]
  /\
  handle playing (JoinRoom "Zz0stranger000000C03" "Carol" "WXYZ")
  = ret playing
      [ToSocket "Zz0stranger000000C03" (ErrorMessage "Raum nicht gefunden.")]
  /\
  sent (handle bob_gone (JoinRoom "Zz0stranger000000C03" "Carol" "ABCD"))
  = [JoinChannel "Zz0stranger000000C03" "ABCD";
     ToRoom "ABCD"
       (RoomJoined "ABCD" 3
          [(alice, "Alice"); ("Zz0stranger000000C03", "Carol")])].
Proof.
  split; [|split].
  - apply (proj1 (proj2 (joinRoom_outcome playing "Zz0stranger000000C03"
                           "Carol" "ABCD")) playing_room);
      [vm_compute; reflexivity|vm_compute; lia].
  - apply (proj1 (joinRoom_outcome playing "Zz0stranger000000C03"
                    "Carol" "WXYZ")).
    vm_compute. reflexivity.
  - apply (proj2 (proj2 (joinRoom_outcome bob_gone "Zz0stranger000000C03"
                           "Carol" "ABCD"))
             (with_players playing_room [(alice, mkPlayer "Alice" "123" true)]));
      [vm_compute; reflexivity|vm_compute; lia].
Defined.

(** ** Guards of setSecret and guess *)

(** X4 (setSecret on a room without a positive code length). createRoom
    stores a negative codeLength as sent; in a room whose codeLength is not
    positive no text passes the format test, so every setSecret is dropped
    without a message and such a room never starts by it. *)
Theorem setSecret_dropped_without_positive_length
    (s : Server) (sid : SocketId) (roomId : RoomId) (sec : string)
    (coin : bool) (room : Room) :
  obj_get (rooms s) roomId = Some room ->
  codeLength room <= 0 ->
  handle s (SetSecret sid roomId sec coin) = ret s [].
Proof.
  intros Hr Hcl. cbn [handle]. unfold setSecret.
  rewrite (rooms_get_own _ _ _ Hr), well_formed_guards'.
  destruct (obj_get (players room) sid); [|done].
  destruct (well_formed sec (codeLength room)) eqn:Hw; [|done].
  apply well_formed_nonempty in Hw. lia.
Qed.

Lemma setSecret_dropped_without_positive_length_witness :
  let s := run init [CreateRoom alice "Alice" (Some (-2)) [0; 1; 2; 3]%nat] in
  (codeLength <$> obj_get (rooms s) "ABCD") = Some (-2) /\
  handle s (SetSecret alice "ABCD" "12" true) = ret s [].
Proof.
  split; [vm_compute; reflexivity|].
  eapply (setSecret_dropped_without_positive_length _ alice "ABCD" "12" true);
    [vm_compute; reflexivity|vm_compute; discriminate].
Defined.

(** X5 (guess out of turn). In a started room a well-formed guess from
    any socket other than the one at turnOrder[0] (the waiting player, or a
    socket that is no player of the room at all) is answered with the error
    "Du bist nicht am Zug." to that socket alone; nothing is broadcast and
    the state is unchanged. *)
Theorem guess_out_of_turn
    (s : Server) (sid : SocketId) (roomId : RoomId) (value : string)
    (room : Room) :
  obj_get (rooms s) roomId = Some room ->
  started room = true ->
  well_formed value (codeLength room) = true ->
  js_index (turnOrder room) 0 <> Some sid ->
  handle s (Guess sid roomId value)
  = ret s [ToSocket sid (ErrorMessage "Du bist nicht am Zug.")].
Proof.
  intros Hr Hst Hw Hturn. cbn [handle]. unfold guess.
  rewrite (rooms_get_own _ _ _ Hr), Hst, well_formed_guards, Hw.
  rewrite indexOf_zero, bool_decide_eq_false_2 by done. done.
Qed.

Lemma guess_out_of_turn_witness :
  handle playing (Guess bob "ABCD" "123")
  = ret playing [ToSocket bob (ErrorMessage "Du bist nicht am Zug.")] /\
  handle playing (Guess "Zz0stranger000000C03" "ABCD" "123")
  = ret playing
      [ToSocket "Zz0stranger000000C03" (ErrorMessage "Du bist nicht am Zug.")].
Proof.
  split.
  - apply (guess_out_of_turn playing bob "ABCD" "123" playing_room);
      vm_compute; (reflexivity || discriminate).
  - apply (guess_out_of_turn playing "Zz0stranger000000C03" "ABCD" "123"
             playing_room); vm_compute; (reflexivity || discriminate).
Defined.

(** ** The players of a room *)

Ltac players_kept := room_updated; split; [reflexivity|left; reflexivity].

Lemma turnTimerCallback_players s roomId :
  updates_room_by players_step s (after (turnTimerCallback roomId s)) roomId.
Proof.
  unfold turnTimerCallback.
  destruct (rooms_get s roomId) as [r| |] eqn:Hg; [|by left..].
  apply rooms_get_own_inv in Hg. case_match; [by left|].
  right. exists r. eexists. split; [done|].
  split; [|apply startTurnTimer_after_set]. split; [done|by left].
Qed.

Lemma joinRoom_players s sid nm roomId :
  updates_room_by players_step s (after (joinRoom sid nm roomId s)) roomId.
Proof.
  unfold joinRoom.
  destruct (rooms_get s roomId) as [r| |] eqn:Hg; [|by left..].
  apply rooms_get_own_inv in Hg.
  destruct (2 <=? length (obj_keys (players r)))%nat eqn:Hfull; [by left|].
  room_updated. split; [done|]. right. left. exists sid, nm.
  split; [by apply Nat.leb_gt|done].
Qed.

Lemma skipTurn_players s sid roomId :
  updates_room_by players_step s (after (skipTurn sid roomId s)) roomId.
Proof.
  unfold skipTurn.
  destruct (rooms_get s roomId) as [r| |] eqn:Hg; [|by left..].
  apply rooms_get_own_inv in Hg.
  do 2 (case_match; [by left|]). players_kept.
Qed.

Lemma guess_players s sid roomId value :
  updates_room_by players_step s (after (guess sid roomId value s)) roomId.
Proof.
  unfold guess.
  destruct (rooms_get s roomId) as [r| |] eqn:Hg; [|by left..].
  apply rooms_get_own_inv in Hg.
  do 3 (case_match; [by left|]).
  destruct (count_correct _ _ _) as [correct|]; [|by left].
  destruct (correct =? codeLength r).
  - destruct (obj_get (players r) sid) as [me|],
      (obj_get (players r) (to_key (js_index (turnOrder r) 1))) as [opp|];
      try players_kept.
    right. exists r. eexists. split; [done|].
    split; [|apply clearTurnTimer_after_set]. split; [done|by left].
  - right. exists r. eexists. split; [done|].
    split; [|apply startTurnTimer_after_set]. split; [done|by left].
Qed.

Lemma setSecret_players s sid roomId sec coin :
  updates_room_by players_step s (after (setSecret sid roomId sec coin s)) roomId.
Proof.
  unfold setSecret.
  destruct (rooms_get s roomId) as [r| |] eqn:Hg; [|by left..].
  apply rooms_get_own_inv in Hg.
  destruct (obj_get (players r) sid) as [p|] eqn:Hp; [|by left].
  rewrite well_formed_guards'.
  destruct (well_formed sec (codeLength r)) eqn:Hw; [|by left]. cbn [negb].
  assert (Hcommit : forall r1,
             codeLength r1 = codeLength r ->
             players r1 = obj_set (players r) sid (mkPlayer (name p) sec true) ->
             players_step r r1).
  { intros r1 Hc Hps. split; [done|]. right. right. by exists sid, p, sec. }
  case_match.
  - right. exists r. eexists. split; [done|].
    split; [|apply startTurnTimer_after_set]. by apply Hcommit.
  - room_updated. by apply Hcommit.
Qed.

Lemma obj_keys_set_new {V} (o : list (string * V)) k v :
  obj_get o k = None -> obj_keys (obj_set o k v) = (obj_keys o ++ [k])%list.
Proof.
  induction o as [|[k0 v0] o IH]; simpl; [done|].
  destruct (String.eqb_spec k0 k) as [->|Hne]; [done|].
  intros H. simpl. by rewrite IH.
Qed.

Lemma obj_keys_set_length {V} (o : list (string * V)) k v :
  (length (obj_keys o) <= length (obj_keys (obj_set o k v))
   <= S (length (obj_keys o)))%nat.
Proof.
  destruct (obj_get o k) as [v0|] eqn:E.
  - rewrite (obj_keys_set_existing o k v0 v E). lia.
  - rewrite (obj_keys_set_new o k v E), length_app. simpl. lia.
Qed.

Lemma obj_keys_delete_length {V} (o : list (string * V)) k :
  (length (obj_keys (obj_delete o k)) <= length (obj_keys o))%nat.
Proof.
  induction o as [|[k0 v0] o IH]; simpl; [done|].
  destruct (String.eqb k0 k); simpl; lia.
Qed.

Lemma players_step_wf r r' : room_wf r -> players_step r r' -> room_wf r'.
Proof.
  intros [Hnd Hcount Hok] [Hcl [E|[(sid & nm & Hfree & E)|(sid & p & sec & Hp & Hw & E)]]].
  - split; rewrite ?E, ?Hcl; done.
  - split; rewrite ?E, ?Hcl.
    + by apply obj_keys_set_NoDup.
    + pose proof (obj_keys_set_length (players r) sid (newPlayer nm)). lia.
    + intros sid' p'. rewrite obj_get_set. case_decide; [|apply Hok].
      intros [= <-]. by left.
  - split; rewrite ?E, ?Hcl.
    + by apply obj_keys_set_NoDup.
    + by rewrite (obj_keys_set_existing _ _ _ _ Hp).
    + intros sid' p'. rewrite obj_get_set. case_decide; [|apply Hok].
      intros [= <-]. by right.
Qed.

Lemma after_disconnect_wf sid r r' :
  room_wf r -> after_disconnect sid r = Some r' -> room_wf r'.
Proof.
  intros [Hnd Hcount Hok]. unfold after_disconnect.
  destruct (obj_get (players r) sid); [|by intros [= <-]].
  destruct (length _ =? 0)%nat eqn:Hlen; [done|]. intros [= <-].
  apply Nat.eqb_neq in Hlen. simpl in *. split; simpl.
  - by apply obj_keys_delete_NoDup.
  - pose proof (obj_keys_delete_length (players r) sid). lia.
  - intros sid' p'. rewrite obj_get_delete. case_decide; [done|apply Hok].
Qed.

Lemma created_room_wf sid nm cl : room_wf (created_room sid nm cl).
Proof.
  split; simpl.
  - apply NoDup_singleton.
  - lia.
  - intros sid' p'. destruct (String.eqb sid sid'); [|done].
    intros [= <-]. by left.
Qed.

Lemma reachable_room_wf s :
  reachable s ->
  forall roomId r, obj_get (rooms s) roomId = Some r -> room_wf r.
Proof.
  induction 1 as [|s e Hs IH Hret]; intros roomId r' Hget; [done|].
  assert (Hstep : forall rid,
             updates_room_by players_step s (after (handle s e)) rid ->
             room_wf r').
  { intros rid Hu.
    destruct (updates_room_by_get _ _ _ _ _ _ Hu Hget) as (r & Hr & [->|Hp]);
      [by eapply IH|].
    eapply players_step_wf; [by eapply IH|done]. }
  destruct e as [sid nm cl draws|sid nm rid|sid rid sec coin
                |sid rid value|sid rid|sid|h]; cbn [handle] in *.
  - rewrite createRoom_rooms, obj_get_set in Hget. case_decide.
    + injection Hget as <-. apply created_room_wf.
    + by eapply IH.
  - eapply Hstep, joinRoom_players.
  - eapply Hstep, setSecret_players.
  - eapply Hstep, guess_players.
  - eapply Hstep, skipTurn_players.
  - rewrite disconnect_rooms in Hget by by apply reachable_NoDup.
    destruct (obj_get (rooms s) roomId) as [r|] eqn:Hr; [|done].
    simpl in Hget. eapply after_disconnect_wf; [by eapply IH|done].
  - destruct (pending s !! h) as [rid|]; [|by eapply IH].
    eapply (Hstep rid).
    apply (turnTimerCallback_players (with_pending s (delete h (pending s)))).
Qed.

(** X6 (rooms and their players). In every reachable state, each room of
    the table has one or two players with distinct ids (a third join is
    refused and a room is deleted with its last player), and each player is
    either not ready with an empty secret or ready with a secret of exactly
    codeLength digits. *)
Theorem rooms_hold_one_or_two_players
    (s : Server) (roomId : RoomId) (r : Room) :
  reachable s ->
  obj_get (rooms s) roomId = Some r ->
  (1 <= length (obj_keys (players r)) <= 2)%nat /\
  NoDup (obj_keys (players r)) /\
  (forall sid p,
      obj_get (players r) sid = Some p ->
      (ready p = false /\ secret p = "") \/
      (ready p = true /\ digits_only (secret p) = true /\
       Z.of_nat (String.length (secret p)) = codeLength r)).
Proof.
  intros Hs Hr. destruct (reachable_room_wf s Hs roomId r Hr) as [Hnd Hc Hok].
  split; [done|]. split; [done|]. intros sid p Hp.
  destruct (Hok sid p Hp) as [[? ?]|[? Hw]]; [by left|right].
  unfold well_formed in Hw. apply andb_prop in Hw as [? ?%Z.eqb_eq]. auto.
Qed.

Lemma rooms_hold_one_or_two_players_witness :
  (1 <= length (obj_keys (players playing_room)) <= 2)%nat /\
  NoDup (obj_keys (players playing_room)).
Proof.
  destruct (rooms_hold_one_or_two_players playing "ABCD" playing_room)
    as (Hc & Hnd & _).
  - apply run_reachable; [apply reachable_init|vm_compute; reflexivity].
  - vm_compute. reflexivity.
  - split; [exact Hc|exact Hnd].
Defined.

(** ** A guess wins exactly on the secret *)

Lemma get_beyond (s : string) : forall i,
  (String.length s <= i)%nat -> String.get i s = None.
Proof.
  induction s as [|c s IH]; intros i Hi; [done|].
  destruct i as [|i]; simpl in *; [lia|]. apply IH. lia.
Qed.

Lemma filter_keeps_all {A} (P : A -> Prop) `{!forall x, Decision (P x)}
    (l : list A) :
  length (filter P l) = length l <-> Forall P l.
Proof.
  induction l as [|x l IH]; [by split; [constructor|]|].
  rewrite filter_cons, Forall_cons.
  pose proof (length_filter P l) as Hle.
  case_decide; simpl.
  - split; [intros [= ?]; tauto|intros [_ ?]; f_equal; tauto].
  - split; [lia|tauto].
Qed.

Lemma matching_positions_le value sec n :
  (matching_positions value sec n <= n)%nat.
Proof.
  unfold matching_positions.
  etrans; [apply length_filter|]. by rewrite length_seq.
Qed.

Lemma matching_positions_all value sec n :
  String.length value = n -> (0 < n)%nat ->
  String.length sec = n \/ sec = "" ->
  matching_positions value sec n = n <-> value = sec.
Proof.
  intros Hv Hn Hs. unfold matching_positions.
  pose proof (filter_keeps_all
                (fun i => String.get i value = String.get i sec) (seq 0 n)) as Hk.
  rewrite length_seq in Hk. rewrite Hk, Forall_forall. clear Hk.
  split.
  - intros Hall. destruct Hs as [Hs| ->].
    + apply String.get_correct. intros i.
      destruct (decide (i < n)%nat) as [Hi|Hi].
      * apply Hall, elem_of_seq. lia.
      * rewrite !get_beyond by lia. done.
    + assert (H0 : String.get 0 value = String.get 0 "")
        by (apply Hall, elem_of_seq; lia).
      destruct value; simpl in *; [lia|discriminate].
  - by intros ->.
Qed.

(** X7 (a guess by the active player). In a reachable state, when the
    active player of an Active room submits a well-formed value while both
    players are in the room, the handler returns and the guess wins exactly
    when the value is the opponent's secret. On the secret the score is
    codeLength, gameOver follows guessResult with the names of winner and
    loser, the winner is recorded, turnOrder stays, and the room's timeout is
    cancelled and its handle dropped. On any other value the score is below
    codeLength, turnChanged follows guessResult, no winner is recorded, the
    turn passes to the opponent and a new timeout is scheduled for the
    room. *)
Theorem guess_by_active_player
    (s : Server) (sid : SocketId) (roomId : RoomId) (value : string)
    (room : Room) (me opp : Player) :
  reachable s ->
  obj_get (rooms s) roomId = Some room ->
  phase room = Active ->
  well_formed value (codeLength room) = true ->
  js_index (turnOrder room) 0 = Some sid ->
  obj_get (players room) sid = Some me ->
  obj_get (players room) (to_key (js_index (turnOrder room) 1)) = Some opp ->
  let o := handle s (Guess sid roomId value) in
  let opponentId := js_index (turnOrder room) 1 in
  let score :=
    Z.of_nat (matching_positions value (secret opp)
                (Z.to_nat (codeLength room))) in
  status o = Returned /\
  (value = secret opp ->
   sent o = [ToRoom roomId (GuessResult sid value (codeLength room));
             ToRoom roomId (GameOver sid (name me) opponentId (name opp))] /\
   exists room',
     obj_get (rooms (after o)) roomId = Some room' /\
     winner room' = Some sid /\ turnOrder room' = turnOrder room /\
     turnTimer room' = None /\
     (forall h, turnTimer room = Some h -> pending (after o) !! h = None)) /\
  (value <> secret opp ->
   score < codeLength room /\
   sent o = [ToRoom roomId (GuessResult sid value score);
             ToRoom roomId (TurnChanged roomId opponentId)] /\
   exists room',
     obj_get (rooms (after o)) roomId = Some room' /\
     winner room' = None /\ turnOrder room' = [opponentId; Some sid] /\
     turnTimer room' = Some (nextHandle s) /\
     pending (after o) !! nextHandle s = Some roomId).
Proof.
  intros Hs Hr [Hst Hwin]%phase_active Hf Hturn Hme Hopp.
  cbn zeta. cbn [handle]. unfold guess.
  rewrite (rooms_get_own _ _ _ Hr), Hst, well_formed_guards, Hf.
  rewrite indexOf_zero, bool_decide_eq_true_2 by done. cbn [negb].
  rewrite Hopp, Hme, count_correct_spec.
  set (n := Z.to_nat (codeLength room)).
  assert (Hn : Z.of_nat n = codeLength room /\ (0 < n)%nat).
  { pose proof (well_formed_nonempty _ _ Hf). subst n. lia. }
  destruct Hn as [Hn Hpos].
  assert (Hlen : String.length value = n).
  { unfold well_formed in Hf. apply andb_prop in Hf as [_ ?%Z.eqb_eq]. lia. }
  assert (Hsec : String.length (secret opp) = n \/ secret opp = "").
  { destruct (reachable_room_wf s Hs roomId room Hr) as [_ _ Hok].
    destruct (Hok _ _ Hopp) as [[? _]|[_ Hw]]; [by right|left].
    unfold well_formed in Hw. apply andb_prop in Hw as [_ ?%Z.eqb_eq]. lia. }
  pose proof (matching_positions_all value (secret opp) n Hlen Hpos Hsec) as Hiff.
  pose proof (matching_positions_le value (secret opp) n) as Hle.
  destruct (Z.of_nat (matching_positions value (secret opp) n) =? codeLength room)
    eqn:Hscore.
  - apply Z.eqb_eq in Hscore.
    assert (Heq : value = secret opp) by (apply Hiff; lia).
    split; [done|]. split; [|by intros []].
    intros _. cbn [sent ret]. rewrite Hscore. split; [done|].
    eexists. split; [|shelve].
    cbn [after ret].
    erewrite clearTurnTimer_own; [|simpl; apply obj_get_set_eq]. done.
    Unshelve. simpl. split; [done|]. split; [done|]. split; [done|].
    intros h Hh. unfold clearTurnTimer.
    rewrite (rooms_get_own _ roomId (with_winner room (Some sid)))
      by (simpl; apply obj_get_set_eq).
    simpl. rewrite Hh. simpl. apply lookup_delete_eq.
  - apply Z.eqb_neq in Hscore.
    assert (Hne : value <> secret opp).
    { intros Heq. apply Hiff in Heq. lia. }
    split; [done|]. split; [by intros ?|].
    intros _. split; [lia|]. split; [done|].
    cbn [after ret].
    erewrite startTurnTimer_own; [|simpl; apply obj_get_set_eq]. simpl.
    eexists. split; [apply obj_get_set_eq|]. simpl.
    split; [done|]. split; [done|]. split; [done|]. apply lookup_insert_eq.
Qed.

Lemma guess_by_active_player_witness :
  sent (handle playing (Guess alice "ABCD" "456"))
  = [ToRoom "ABCD" (GuessResult alice "456" 3);
     ToRoom "ABCD" (GameOver alice "Alice" (Some bob) "Bob")].
Proof.
  refine (proj1 (proj1 (proj2 (guess_by_active_player playing alice "ABCD" "456"
                          playing_room (mkPlayer "Alice" "123" true)
                          (mkPlayer "Bob" "456" true) _ _ _ _ _ _ _)) _)).
  - apply run_reachable; [apply reachable_init|vm_compute; reflexivity].
  - vm_compute. reflexivity.
  - vm_compute. reflexivity.
  - vm_compute. reflexivity.
  - vm_compute. reflexivity.
  - vm_compute. reflexivity.
  - vm_compute. reflexivity.
  - vm_compute. reflexivity.
Defined.

(** ** The start of a game *)

(** X8 (setSecret and the start of the game). In a room of two players
    that has not started, a well-formed setSecret from one of them stores the
    secret, marks the sender ready and broadcasts playerReady. If the other
    player is ready the game starts in the same step: allReady is true,
    started is set, turnOrder is the two ids in the order of the table when
    the coin says so and reversed otherwise, one gameStarted names the first
    of them, and a timeout is scheduled for the room under a fresh handle. If
    the other player is not ready, allReady is false and the room neither
    starts nor gets a timer. *)
Theorem setSecret_starts_game_when_both_ready
    (s : Server) (sid : SocketId) (roomId : RoomId) (sec : string)
    (coin : bool) (room : Room) (a b : SocketId) (pa pb : Player) :
  obj_get (rooms s) roomId = Some room ->
  started room = false ->
  players room = [(a, pa); (b, pb)] ->
  a <> b ->
  sid = a \/ sid = b ->
  well_formed sec (codeLength room) = true ->
  let o := handle s (SetSecret sid roomId sec coin) in
  let mine := if decide (sid = a) then pa else pb in
  let other := if decide (sid = a) then pb else pa in
  let committed := mkPlayer (name mine) sec true in
  let first := if coin then a else b in
  let second := if coin then b else a in
  status o = Returned /\
  (exists room',
      obj_get (rooms (after o)) roomId = Some room' /\
      obj_get (players room') sid = Some committed /\
      obj_keys (players room') = [a; b] /\
      started room' = ready other /\
      if ready other then
        sent o = [ToRoom roomId (PlayerReady sid (name mine) true);
                  ToRoom roomId (GameStarted roomId (Some first))] /\
        turnOrder room' = [Some first; Some second] /\
        turnTimer room' = Some (nextHandle s) /\
        pending (after o) !! nextHandle s = Some roomId
      else
        sent o = [ToRoom roomId (PlayerReady sid (name mine) false)] /\
        turnOrder room' = turnOrder room /\
        turnTimer room' = turnTimer room /\
        pending (after o) = pending s).
Proof.
  intros Hr Hst Hps Hab Hsid Hw. cbn zeta. cbn [handle]. unfold setSecret.
  rewrite (rooms_get_own _ _ _ Hr), well_formed_guards', Hw. cbn [negb].
  assert (Hba : String.eqb a b = false) by by apply String.eqb_neq.
  assert (Hba' : String.eqb b a = false) by (apply String.eqb_neq; congruence).
  rewrite Hps.
  destruct Hsid as [-> | ->].
  - destruct (decide (a = a)) as [_|]; [|done].
    cbn [obj_get obj_set]. rewrite !String.eqb_refl.
    cbn [players with_players obj_values obj_keys map snd fst length
         Nat.eqb forallb ready andb started].
    rewrite Hst. cbn [negb].
    destruct (ready pb); cbn [andb].
    + split; [done|].
      erewrite startTurnTimer_own; [|cbn; apply obj_get_set_eq].
      cbn [after ret rooms pending]. eexists. split; [apply obj_get_set_eq|].
      cbn. rewrite String.eqb_refl.
      repeat (split; [by destruct coin|]).
      apply lookup_insert_eq.
    + split; [done|].
      cbn [after ret rooms with_rooms]. eexists. split; [apply obj_get_set_eq|].
      cbn. rewrite String.eqb_refl. by rewrite Hst.
  - destruct (decide (b = a)) as [|_]; [congruence|].
    cbn [obj_get obj_set]. rewrite Hba, !String.eqb_refl.
    cbn [players with_players obj_values obj_keys map snd fst length
         Nat.eqb forallb ready andb started].
    rewrite Hst, andb_true_r. cbn [negb].
    destruct (ready pa); cbn [andb].
    + split; [done|].
      erewrite startTurnTimer_own; [|cbn; apply obj_get_set_eq].
      cbn [after ret rooms pending]. eexists. split; [apply obj_get_set_eq|].
      cbn. rewrite Hba, String.eqb_refl.
      repeat (split; [by destruct coin|]).
      apply lookup_insert_eq.
    + split; [done|].
      cbn [after ret rooms with_rooms]. eexists. split; [apply obj_get_set_eq|].
      cbn. rewrite Hba, String.eqb_refl. by rewrite Hst.
Qed.

Lemma setSecret_starts_game_when_both_ready_witness :
  let s := run init [ CreateRoom alice "Alice" (Some 3) [0; 1; 2; 3]%nat;
                      JoinRoom bob "Bob" "ABCD";
                      SetSecret alice "ABCD" "123" true ] in
  sent (handle s (SetSecret bob "ABCD" "456" false))
  = [ToRoom "ABCD" (PlayerReady bob "Bob" true);
     ToRoom "ABCD" (GameStarted "ABCD" (Some bob))].
Proof.
  intros s.
  destruct (setSecret_starts_game_when_both_ready s bob "ABCD" "456" false
              (mkRoom [(alice, mkPlayer "Alice" "123" true);
                       (bob, mkPlayer "Bob" "" false)]
                 3 false [] None None)
              alice bob (mkPlayer "Alice" "123" true) (mkPlayer "Bob" "" false))
    as (_ & room' & _ & _ & _ & _ & H).
  - vm_compute. reflexivity.
  - reflexivity.
  - reflexivity.
  - vm_compute. discriminate.
  - right. reflexivity.
  - vm_compute. reflexivity.
  - simpl in H. destruct H as [H _]. exact H.
Defined.

(** ** Expiry of the turn timer *)

Lemma run_reachable_fresh es : forall s,
  reachable_fresh s -> fresh_run s es = true -> reachable_fresh (run s es).
Proof.
  induction es as [|e es IH]; intros s Hs Hrun; [done|]. simpl in *.
  apply andb_prop in Hrun as [Hfresh Hrun].
  destruct (status (handle s e)) eqn:E; [|done].
  apply IH; [|done]. apply reachable_fresh_step; [done| |done].
  intros roomId Hc. destruct e; try done. simpl in Hc. subst roomId.
  by destruct (obj_get (rooms s) (generateRoomId draws)).
Qed.

(** X9 (expiry of the turn timer). In a state reached without room-id
    collisions, when the pending timeout of an Active room fires, the
    callback returns, the player whose turn it was loses it: turnOrder is
    swapped, one turnTimeout names the expired and the next player, the
    winner stays unset and the players are untouched, and the fired timeout
    is replaced in the table by a new one for the same room under a fresh
    handle. When the room already has a winner the callback sends nothing and
    changes nothing: the timeout is simply gone. *)
Theorem timer_expiry_passes_turn
    (s : Server) (h : TimerHandle) (roomId : RoomId) (room : Room) :
  reachable_fresh s ->
  pending s !! h = Some roomId ->
  obj_get (rooms s) roomId = Some room ->
  let o := handle s (TimerExpiry h) in
  (phase room = Active ->
   exists a b,
     turnOrder room = [Some a; Some b] /\
     status o = Returned /\
     sent o = [ToRoom roomId (TurnTimeout roomId (Some a) (Some b))] /\
     pending (after o) = <[nextHandle s := roomId]> (delete h (pending s)) /\
     exists room',
       obj_get (rooms (after o)) roomId = Some room' /\
       turnOrder room' = [Some b; Some a] /\
       turnTimer room' = Some (nextHandle s) /\
       winner room' = None /\ started room' = true /\
       players room' = players room) /\
  (truthy (winner room) = true ->
   o = ret (with_pending s (delete h (pending s))) []).
Proof.
  intros Hs Hp Hr. cbn zeta. cbn [handle]. rewrite Hp.
  unfold turnTimerCallback.
  assert (Hr0 : rooms_get (with_pending s (delete h (pending s))) roomId = Own room)
    by (by apply rooms_get_own).
  rewrite Hr0. split.
  - intros [Hst Hw]%phase_active. rewrite Hst, Hw. cbn [negb truthy orb].
    destruct (reachable_two_turns s (reachable_fresh_reachable s Hs) roomId room
                Hr Hst) as (a & b & Eab).
    pose proof (pending_here _ _ _ _ _ (reachable_fresh_timers s Hs) Hr Hp) as Ht.
    exists a, b. split; [done|]. rewrite Eab. cbn [js_index lookup list_lookup].
    split; [done|]. split; [done|].
    erewrite startTurnTimer_own; [|cbn; apply obj_get_set_eq].
    cbn. rewrite Ht. split.
    + f_equal. apply delete_delete_eq.
    + eexists. split; [apply obj_get_set_eq|]. by cbn.
  - intros ->. by rewrite orb_true_r.
Qed.

Lemma timer_expiry_passes_turn_witness :
  sent (handle playing (TimerExpiry 0%nat))
  = [ToRoom "ABCD" (TurnTimeout "ABCD" (Some alice) (Some bob))].
Proof.
  destruct (proj1 (timer_expiry_passes_turn playing 0%nat "ABCD" playing_room
                     ltac:(apply run_reachable_fresh;
                           [apply reachable_fresh_init|vm_compute; reflexivity])
                     ltac:(vm_compute; reflexivity)
                     ltac:(vm_compute; reflexivity))
              ltac:(vm_compute; reflexivity))
    as (a & b & Eab & _ & Hsent & _).
  injection Eab as <- <-. exact Hsent.
Defined.

(** X10 (no timeout outlives its room). In a state reached without
    room-id collisions, every pending timeout is bound to a room that is in
    the table, has started, and holds that very handle: deleting a room with
    its last player cancels its timeout first. *)
Theorem pending_timer_has_its_room
    (s : Server) (h : TimerHandle) (roomId : RoomId) :
  reachable_fresh s ->
  pending s !! h = Some roomId ->
  exists room,
    obj_get (rooms s) roomId = Some room /\
    started room = true /\ turnTimer room = Some h.
Proof.
  intros Hs Hp.
  destruct (pending_owned _ _ (reachable_fresh_timers s Hs) h roomId Hp)
    as (r & Hr & Ht & Hst).
  by exists r.
Qed.

Lemma pending_timer_has_its_room_witness :
  exists room,
    obj_get (rooms playing) "ABCD" = Some room /\
    started room = true /\ turnTimer room = Some 0%nat.
Proof.
  apply (pending_timer_has_its_room playing 0%nat "ABCD").
  - apply run_reachable_fresh; [apply reachable_fresh_init|vm_compute; reflexivity].
  - vm_compute. reflexivity.
Defined.

(** X11 (clearTurnTimer is idempotent). Cancelling the timer of a room a
    second time changes nothing: the first call has removed the timeout and
    reset the room's handle, and a room without handle, a missing room or an
    inherited name make the call a no-op. *)
Theorem clearTurnTimer_idempotent (s : Server) (roomId : RoomId) :
  clearTurnTimer roomId (clearTurnTimer roomId s) = clearTurnTimer roomId s.
Proof.
  unfold clearTurnTimer at 2 3.
  destruct (rooms_get s roomId) as [room| |] eqn:Hg;
    [|unfold clearTurnTimer; by rewrite Hg..].
  destruct (turnTimer room) as [h|] eqn:Ht.
  - unfold clearTurnTimer.
    rewrite (rooms_get_own _ roomId (with_turnTimer room None))
      by (cbn; apply obj_get_set_eq).
    done.
  - unfold clearTurnTimer. by rewrite Hg, Ht.
Qed.

(** ** disconnect *)

Lemma disconnect_fold_sent sid (l : list (RoomId * Room)) :
  forall s out,
    (fold_left (disconnect_room sid) l (s, out)).2
    = (out ++ map (fun e => ToRoom e.1 (OpponentLeft sid))
                (filter (fun e => is_Some (obj_get (players e.2) sid)) l))%list.
Proof.
  induction l as [|[k room] l IH]; intros s out.
  - simpl. by rewrite app_nil_r.
  - cbn [fold_left]. rewrite filter_cons. unfold disconnect_room at 2. simpl.
    destruct (obj_get (players room) sid) as [p|] eqn:Hp.
    + rewrite decide_True by eauto.
      case_match; rewrite IH; simpl; by rewrite <- app_assoc.
    + rewrite decide_False by (by intros [? ?]). apply IH.
Qed.






Lemma obj_get_of_elem {V} (o : list (string * V)) k v :
  NoDup (obj_keys o) -> (k, v) ∈ o -> obj_get o k = Some v.
Proof.
  induction o as [|[k0 v0] o IH]; simpl; [by intros _ ?%elem_of_nil|].
  intros [Hk0 Hnd]%NoDup_cons [[= -> ->]|Hin]%elem_of_cons.
  - by rewrite String.eqb_refl.
  - destruct (String.eqb_spec k0 k) as [->|Hne]; [|by apply IH].
    destruct Hk0. unfold obj_keys. apply list_elem_of_fmap. by exists (k, v).
Qed.

Lemma disconnect_fold_absent sid (l : list (RoomId * Room)) :
  forall acc,
    (forall e, e ∈ l -> obj_get (players e.2) sid = None) ->
    fold_left (disconnect_room sid) l acc = acc.
Proof.
  induction l as [|[k room] l IH]; intros [s out] Habs; [done|].
  cbn [fold_left]. unfold disconnect_room at 2.
  assert (H : obj_get (players room) sid = None)
    by (apply (Habs (k, room)), elem_of_cons; by left).
  rewrite H. apply IH. intros e He. apply Habs, elem_of_cons. by right.
Qed.

(** X13 (disconnect is idempotent). On a table with distinct room ids,
    running the disconnect handler a second time for the same socket sends
    nothing and leaves the state as the first run left it. *)
Theorem disconnect_idempotent (s : Server) (sid : SocketId) :
  NoDup (obj_keys (rooms s)) ->
  let s1 := after (handle s (Disconnect sid)) in
  handle s1 (Disconnect sid) = ret s1 [].
Proof.
  intros Hnd s1. cbn [handle]. unfold disconnect.
  rewrite disconnect_fold_absent; [done|].
  intros [k r] He. simpl.
  pose proof (handle_NoDup s (Disconnect sid) Hnd) as Hnd1.
  pose proof (obj_get_of_elem _ _ _ Hnd1 He) as Hget.
  cbn [handle] in Hget. rewrite (disconnect_rooms sid s k Hnd) in Hget.
  destruct (obj_get (rooms s) k) as [r0|]; [|done]. simpl in Hget.
  unfold after_disconnect in Hget.
  destruct (obj_get (players r0) sid) eqn:Hp.
  - case_match; [done|]. injection Hget as <-. simpl.
    rewrite obj_get_delete. by rewrite decide_True.
  - by injection Hget as <-.
Qed.

Lemma disconnect_idempotent_witness :
  handle bob_gone (Disconnect bob) = ret bob_gone [].
Proof.
  apply (disconnect_idempotent playing bob).
  vm_compute. apply NoDup_singleton.
Defined.

(** ** Along a run *)

(** X14 (codeLength is fixed at creation). Along any sequence of events
    that contains no createRoom generating this room's id again, a room
    found in the table at the end was there at the beginning with the same
    codeLength: no handler ever changes it. *)
Theorem codeLength_fixed
    (s : Server) (es : list Event) (roomId : RoomId) (r' : Room) :
  NoDup (obj_keys (rooms s)) ->
  Forall (fun e => ~ creates e roomId) es ->
  obj_get (rooms (run s es)) roomId = Some r' ->
  exists r, obj_get (rooms s) roomId = Some r /\ codeLength r' = codeLength r.
Proof.
  revert s. induction es as [|e es IH]; intros s Hnd Hes Hget.
  - exists r'. auto.
  - apply Forall_cons in Hes as [He Hes]. simpl in Hget.
    assert (Hone : forall r1,
               obj_get (rooms (after (handle s e))) roomId = Some r1 ->
               exists r, obj_get (rooms s) roomId = Some r /\
                         codeLength r1 = codeLength r).
    { intros r1 H1.
      destruct (handle_room s e roomId r1 Hnd He H1) as (r & Hr & [Hc _ _ _]).
      eauto. }
    destruct (status (handle s e)).
    + destruct (IH (after (handle s e)) (handle_NoDup s e Hnd) Hes Hget)
        as (r1 & Hr1 & Hc1).
      destruct (Hone r1 Hr1) as (r & Hr & Hc0).
      exists r. split; [done|congruence].
    + by apply Hone.
Qed.

Lemma codeLength_fixed_witness :
  exists r,
    obj_get (rooms playing) "ABCD" = Some r /\ 3 = codeLength r.
Proof.
  apply (codeLength_fixed playing
           [Guess alice "ABCD" "455"; TimerExpiry 1%nat; SkipTurn alice "ABCD";
            Disconnect alice; JoinRoom alice "Alice" "ABCD"]
           "ABCD"
           (mkRoom
              [(bob, mkPlayer "Bob" "456" true);
               (alice, mkPlayer "Alice" "" false)]
              3 true [Some bob; Some alice] None (Some 2%nat))).
  - vm_compute. apply NoDup_singleton.
  - repeat constructor; intros [].
  - vm_compute. reflexivity.
Defined.

Lemma obj_set_same {V} (o : list (string * V)) k v :
  obj_get o k = Some v -> obj_set o k v = o.
Proof.
  induction o as [|[k0 v0] o IH]; simpl; [done|].
  destruct (String.eqb_spec k0 k) as [->|Hne]; intros H.
  - congruence.
  - by rewrite IH.
Qed.

(** X15 (two skips cancel). When the player at turnOrder[0] of a started
    room skips and the player who thereby became active skips as well, the
    server state is again exactly what it was before the two skips: rooms,
    pending timers and timer handles. *)
Theorem skipTurn_twice_restores
    (s : Server) (a b : SocketId) (roomId : RoomId) (room : Room) :
  obj_get (rooms s) roomId = Some room ->
  started room = true ->
  turnOrder room = [Some a; Some b] ->
  after (handle (after (handle s (SkipTurn a roomId))) (SkipTurn b roomId)) = s.
Proof.
  intros Hr Hst Hto. cbn [handle]. unfold skipTurn at 2.
  rewrite (rooms_get_own _ _ _ Hr), Hst, Hto. cbn.
  rewrite bool_decide_eq_true_2 by done. cbn [negb after ret].
  unfold skipTurn.
  rewrite (rooms_get_own _ roomId (with_turnOrder room [Some b; Some a]))
    by (cbn; apply obj_get_set_eq).
  cbn. rewrite Hst. cbn.
  rewrite bool_decide_eq_true_2 by done. cbn.
  rewrite obj_set_set.
  assert (E : with_turnOrder (with_turnOrder room [Some b; Some a])
                [Some a; Some b] = room).
  { destruct room; simpl in *. by subst. }
  unfold with_rooms. cbn. change
    (mkRoom (players room) (codeLength room) (started room)
       [Some a; Some b] (winner room) (turnTimer room))
    with (with_turnOrder (with_turnOrder room [Some b; Some a]) [Some a; Some b]).
  rewrite E, (obj_set_same _ _ _ Hr). by destruct s.
Qed.

Lemma skipTurn_twice_restores_witness :
  after (handle (after (handle playing (SkipTurn alice "ABCD")))
           (SkipTurn bob "ABCD")) = playing.
Proof.
  apply (skipTurn_twice_restores playing alice bob "ABCD" playing_room);
    vm_compute; reflexivity.
Defined.

(** ** Runs in which nobody leaves a started room *)

Lemma leaves_started_roomb_sound s e :
  leaves_started_roomb s e = false -> ~ leaves_started_room s e.
Proof.
  destruct e as [| | | | |sid|]; simpl;
    [tauto|tauto|tauto|tauto|tauto| |tauto].
  intros Hb (roomId & r & Hr & Hst & Hin).
  assert (Hel : (roomId, r) ∈ rooms s).
  { clear -Hr. induction (rooms s) as [|[k v] o IH]; [done|]. simpl in Hr.
    destruct (String.eqb_spec k roomId) as [->|Hne].
    - injection Hr as ->. apply elem_of_cons. by left.
    - apply elem_of_cons. right. by apply IH. }
  apply not_true_iff_false in Hb. apply Hb.
  apply existsb_exists. exists (roomId, r).
  split; [by apply list_elem_of_In|]. simpl. rewrite Hst.
  by destruct (obj_get (players r) sid).
Qed.

Lemma run_reachable_staying es : forall s,
  reachable_staying s -> staying_run s es = true ->
  reachable_staying (run s es).
Proof.
  induction es as [|e es IH]; intros s Hs Hrun; [done|]. simpl in *.
  apply andb_prop in Hrun as [Hstay%negb_true_iff Hrun].
  destruct (status (handle s e)) eqn:E; [|done].
  apply IH; [|done].
  apply reachable_staying_step; [done|by apply leaves_started_roomb_sound|done].
Qed.

(** X16 (turn order while nobody leaves). As long as no player of a
    started room disconnects, the turnOrder of every started room consists
    of two different ids which are exactly the ids of the room's two
    players: the player to move and the waiting player are both in the room
    and are never the same socket. *)
Theorem turnOrder_names_two_players
    (s : Server) (roomId : RoomId) (r : Room) :
  reachable_staying s ->
  obj_get (rooms s) roomId = Some r ->
  started r = true ->
  exists a b pa pb,
    turnOrder r = [Some a; Some b] /\ a <> b /\
    obj_get (players r) a = Some pa /\ obj_get (players r) b = Some pb /\
    Permutation (obj_keys (players r)) [a; b].
Proof.
  intros Hs Hr Hst.
  pose proof (reachable_staying_reachable s Hs) as Hreach.
  destruct (reachable_two_turns s Hreach roomId r Hr Hst) as (a & b & Eab).
  pose proof (reachable_staying_members s Hs roomId r Hr Hst) as HP.
  destruct (turn_members_players r a b Eab HP) as [[pa Ha] [pb Hb]].
  destruct (reachable_room_wf s Hreach roomId r Hr) as [Hnd _ _].
  rewrite Eab in HP.
  assert (HP' : Permutation (obj_keys (players r)) [a; b]).
  { apply Permutation_length_2_inv in HP.
    destruct (obj_keys (players r)) as [|x [|y [|]]]; simpl in HP;
      destruct HP as [HP|HP]; try discriminate HP;
      injection HP as -> ->; [done|apply perm_swap]. }
  exists a, b, pa, pb. split; [done|]. split; [|done].
  intros ->. rewrite HP' in Hnd. apply NoDup_cons in Hnd as [Hin _].
  apply Hin, elem_of_cons. by left.
Qed.

Lemma turnOrder_names_two_players_witness :
  exists a b pa pb,
    turnOrder playing_room = [Some a; Some b] /\ a <> b /\
    obj_get (players playing_room) a = Some pa /\
    obj_get (players playing_room) b = Some pb /\
    Permutation (obj_keys (players playing_room)) [a; b].
Proof.
  apply (turnOrder_names_two_players playing "ABCD" playing_room).
  - apply run_reachable_staying;
      [apply reachable_staying_init|vm_compute; reflexivity].
  - vm_compute. reflexivity.
  - reflexivity.
Defined.

(** ** Instances on the worked sessions *)

Lemma createRoom_outcome_witness :
  let o := handle playing
             (CreateRoom "Cq5carol0000000000D4" "Carol" (Some 0) [4; 4; 4; 4]%nat) in
  sent o = [JoinChannel "Cq5carol0000000000D4" "EEEE";
            ToSocket "Cq5carol0000000000D4" (RoomCreated "EEEE" 3)] /\
  obj_get (rooms (after o)) "ABCD" = obj_get (rooms playing) "ABCD".
Proof.
  pose proof (createRoom_outcome playing "Cq5carol0000000000D4" "Carol"
                (Some 0) [4; 4; 4; 4]%nat) as (_ & Hsent & _ & Hother & _).
  split; [exact Hsent|]. apply Hother. vm_compute. discriminate.
Defined.

Lemma timer_cardinality_witness :
  exists h, turnTimer playing_room = Some h /\ pending playing !! h = Some "ABCD".
Proof.
  apply (proj2 (proj2 (timer_cardinality playing "ABCD" playing_room
                         ltac:(apply run_reachable_fresh;
                               [apply reachable_fresh_init
                               |vm_compute; reflexivity])
                         ltac:(vm_compute; reflexivity)))).
  vm_compute. reflexivity.
Defined.

Lemma startTurnTimer_cancels_previous_witness :
  pending (startTurnTimer "ABCD" playing) !! 0%nat = None /\
  pending (startTurnTimer "ABCD" playing) !! nextHandle playing = Some "ABCD".
Proof.
  apply (startTurnTimer_cancels_previous playing "ABCD" playing_room 0%nat).
  - vm_compute. reflexivity.
  - reflexivity.
  - vm_compute. discriminate.
Defined.

Lemma addressed_room_only_witness :
  obj_get (rooms (after (handle two_rooms (Guess alice "ABCD" "455")))) "EEEE"
  = obj_get (rooms two_rooms) "EEEE".
Proof.
  apply (addressed_room_only two_rooms (Guess alice "ABCD" "455") "ABCD" "EEEE").
  - reflexivity.
  - vm_compute. discriminate.
Defined.


Lemma winner_assigned_only_by_guess_witness :
  exists r,
    obj_get (rooms won) "ABCD" = Some r /\ Some alice = winner r.
Proof.
  apply (winner_assigned_only_by_guess won (SkipTurn alice "ABCD") "ABCD"
           (mkRoom
              [(alice, mkPlayer "Alice" "123" true);
               (bob, mkPlayer "Bob" "456" true)]
              3 true [Some bob; Some alice] (Some alice) None)).
  - vm_compute. apply NoDup_singleton.
  - exact I.
  - vm_compute. reflexivity.
Defined.

(** ** Where gameStarted comes from *)

Ltac not_game_started H :=
  simpl in H;
  repeat (destruct H as [H|H]; [discriminate H|]);
  try (destruct H).

(** X22 (gameStarted marks the start). A gameStarted message is sent only
    by a setSecret on a room of the table that had not started; that room
    is started afterwards and the message names the player at turnOrder[0].
    No other handler and no later setSecret on the room sends it. *)
Theorem gameStarted_only_at_start
    (s : Server) (e : Event) (to : RoomId) (roomId : RoomId)
    (first : option SocketId) :
  In (ToRoom to (GameStarted roomId first)) (sent (handle s e)) ->
  exists sid sec coin room room',
    e = SetSecret sid roomId sec coin /\ to = roomId /\
    obj_get (rooms s) roomId = Some room /\ started room = false /\
    obj_get (rooms (after (handle s e))) roomId = Some room' /\
    started room' = true /\ js_index (turnOrder room') 0 = first.
Proof.
  intros Hin.
  destruct e as [sid nm cl draws|sid nm rid|sid rid sec coin
                |sid rid value|sid rid|sid|h]; cbn [handle] in *.
  - not_game_started Hin.
  - unfold joinRoom in Hin. repeat case_match; not_game_started Hin.
  - unfold setSecret in *.
    destruct (rooms_get s rid) as [r| |] eqn:Hg; [|not_game_started Hin..].
    apply rooms_get_own_inv in Hg.
    destruct (obj_get (players r) sid) as [p|]; [|not_game_started Hin].
    case_match; [not_game_started Hin|].
    cbn [players with_players started] in *.
    destruct (_ && negb (started r)) eqn:Hgo; [|not_game_started Hin].
    apply andb_prop in Hgo as [_ Hst%negb_true_iff].
    simpl in Hin. destruct Hin as [Hin|[Hin|[]]]; [discriminate Hin|].
    injection Hin as <- <- <-.
    exists sid, sec, coin, r. eexists. split; [done|]. split; [done|].
    split; [done|]. split; [done|].
    cbn [after ret]. rewrite startTurnTimer_after_set.
    split; [apply obj_get_set_eq|]. by cbn.
  - unfold guess in Hin. repeat case_match; not_game_started Hin.
  - unfold skipTurn in Hin. repeat case_match; not_game_started Hin.
  - unfold disconnect in Hin.
    pose proof (disconnect_fold_sent sid (rooms s) s []) as Hs.
    destruct (fold_left _ _ _) as [s' out]. simpl in *. subst out.
    apply in_map_iff in Hin as (x & Hx & _). discriminate Hx.
  - destruct (pending s !! h); [|not_game_started Hin].
    unfold turnTimerCallback in Hin. repeat case_match; not_game_started Hin.
Qed.

Lemma gameStarted_only_at_start_witness :
  let s := run init [ CreateRoom alice "Alice" (Some 3) [0; 1; 2; 3]%nat;
                      JoinRoom bob "Bob" "ABCD";
                      SetSecret alice "ABCD" "123" true ] in
  exists sid sec coin room room',
    SetSecret bob "ABCD" "456" true = SetSecret sid "ABCD" sec coin /\
    "ABCD" = "ABCD" /\
    obj_get (rooms s) "ABCD" = Some room /\ started room = false /\
    obj_get (rooms (after (handle s (SetSecret bob "ABCD" "456" true)))) "ABCD"
    = Some room' /\
    started room' = true /\ js_index (turnOrder room') 0 = Some alice.
Proof.
  intros s.
  apply (gameStarted_only_at_start s (SetSecret bob "ABCD" "456" true)
           "ABCD" "ABCD" (Some alice)).
  vm_compute. right. left. reflexivity.
Defined.
